(** * Nova SDS011 service (bin/user/novaSDS011.py): shallow embedding

    The Python module is embedded function by function.  Python integers are
    [Z], [bytes] objects are lists of integers in [0, 256), Python floats are
    IEEE binary64 values ([PrimFloat.float]), exceptions are a [result] type,
    and list objects live in a heap of mutable cells.

    The environment is explicit state: the serial line is the sequence of
    outcomes of the port's waits for a byte, the wall clock is the sequence
    of readings [time.time()] returns, the file system is a map from paths
    to files and directories.  Loops that the environment can keep running
    take fuel.  The port itself never fails (no [SerialException]), and
    logging has no effect other than the record it leaves.

    Embedded: [construct_command], [cmd_set_mode], [cmd_set_sleep],
    [cmd_query_data], [read_response], one round of the loop of
    [sensor_loop] with its sampling loop and its publishing step,
    [write_json], [new_loop_packet], and the cache attributes as
    [__init__] sets them.  The two threads that share the cache are a
    transition system over the statements that take the lock. *)

From Stdlib Require Import ZArith List Lia Bool QArith.
From Stdlib Require Import PrimInt63 Uint63 PrimFloat DecimalString Ascii.
From stdpp Require Import gmap strings list.

#[local] Set Warnings "-inexact-float".
Local Open Scope Z_scope.

(** ** Exceptions and results *)

Inductive timeout_msg :=
| NoResponse                       (* "No response from sensor" *)
| IncompleteResponse (got : nat).  (* "Incomplete response: expected 9 bytes, got N" *)

Inductive os_error :=
| FileNotFoundError
| FileExistsError
| NotADirectoryError
| IsADirectoryError.

Inductive exn :=
| AssertionError
| TypeError
| ValueError
| IndexError
| TimeoutError (m : timeout_msg)
| OSError (e : os_error).

Inductive result (A : Type) :=
| Ok (a : A)
| Raise (e : exn).
Arguments Ok {A} a.
Arguments Raise {A} e.

#[export] Instance result_ret : MRet result := fun A a => Ok a.
#[export] Instance result_bind : MBind result := fun A B f r =>
  match r with
  | Ok a => f a
  | Raise e => Raise e
  end.

(** ** Python built-ins used by the module *)

Definition byte_value (z : Z) : Prop := 0 <= z < 256.

Definition is_byte (z : Z) : bool := (0 <=? z) && (z <? 256).

(** [bytes(iterable_of_ints)]: ValueError unless every item is in range(256). *)
Definition bytes (l : list Z) : result (list Z) :=
  if forallb is_byte l then Ok l else Raise ValueError.

(** [sum(l)]: starts from 0 and adds the items from left to right. *)
Definition sum (l : list Z) : Z := fold_left Z.add l 0.

(** ** SDS011 commands *)

Definition CMD_MODE : Z := 2.
Definition CMD_QUERY_DATA : Z := 4.
Definition CMD_SLEEP : Z := 6.
Definition MODE_QUERY : Z := 1.

(** ** construct_command

    Python list objects are mutable and passed by reference: the heap maps a
    reference to the current contents of the list it denotes.  A reference
    the heap does not know stands for an object that is not a list. *)

Definition loc := positive.
Abbreviation heap := (gmap loc (list Z)).

(** What [data += [0] * (12 - len(data))] leaves in the list: Python's
    [[0] * k] is empty for [k <= 0], as is [replicate] on a truncated
    difference. *)
Definition zero_padded (data : list Z) : list Z :=
  data ++ replicate (12 - length data)%nat 0.

Definition checksum_of (cmd : Z) (padded : list Z) : Z :=
  (sum padded + cmd - 2) mod 256.

Definition construct_command (cmd : Z) (data : option loc) (h : heap)
  : result (list Z) * heap :=
  (* if data is None: data = [] *)
  let '(l, h) :=
    match data with
    | None => let l := fresh (dom h) in (l, <[l := []]> h)
    | Some l => (l, h)
    end in
  match h !! l with
  | None => (Raise TypeError, h)                           (* len(data) *)
  | Some v =>
    (* assert len(data) <= 12 *)
    if (12 <? length v)%nat then (Raise AssertionError, h)
    else
      (* data += [0] * (12 - len(data)): extends the list object in place *)
      let v' := zero_padded v in
      let h' := <[l := v']> h in
      let checksum := checksum_of cmd v' in
      (b1 ← bytes [cmd];
       b2 ← bytes v';
       b3 ← bytes [checksum];
       Ok ([0xaa; 0xb4] ++ b1 ++ b2 ++ [0xff; 0xff] ++ b3 ++ [0xab]),
       h')
  end.

(** The contents of the sequence an argument denotes on entry. *)
Definition arg_value (h : heap) (data : option loc) : option (list Z) :=
  match data with
  | None => Some []
  | Some l => h !! l
  end.

(** A call whose argument is absent or a list display ([construct_command(c)],
    [construct_command(c, [a, b])]): the list is allocated for the call and
    unreachable afterwards, so only the returned value matters. *)
Definition construct_command_lit (cmd : Z) (data : option (list Z))
  : result (list Z) :=
  match data with
  | None => (construct_command cmd None ∅).1
  | Some v => (construct_command cmd (Some 1%positive) {[ 1%positive := v ]}).1
  end.

(** ** A monad for the stateful, fallible, possibly looping code

    A computation over a state [S] either runs out of fuel ([None]: the loop
    it was in had not finished) or ends in a new state with a value or a
    raised exception. *)

Definition M (S A : Type) : Type := S → option (result A * S).

#[export] Instance M_ret {S} : MRet (M S) := fun A a s => Some (Ok a, s).
#[export] Instance M_bind {S} : MBind (M S) := fun A B f m s =>
  match m s with
  | None => None
  | Some (Ok a, s') => f a s'
  | Some (Raise e, s') => Some (Raise e, s')
  end.

Definition raise {S A} (e : exn) : M S A := fun s => Some (Raise e, s).

(** [try: body / except Exception as e: handler(e)] *)
Definition try_except {S A} (body : M S A) (handler : exn → M S A) : M S A :=
  fun s =>
    match body s with
    | Some (Raise e, s') => handler e s'
    | r => r
    end.

Definition get {S} : M S S := fun s => Some (Ok s, s).
Definition modify {S} (f : S → S) : M S unit := fun s => Some (Ok tt, f s).
Definition lift_result {S A} (r : result A) : M S A := fun s => Some (r, s).

(** ** The serial port (pyserial)

    The line is seen through the waits the port performs: the [i]-th wait
    for a byte either delivers one or ends with the port's timeout.  The
    sequence of waits is unbounded; a [read] consumes as many of them as it
    performs. *)

Record Serial := mkSerial {
  rx : nat → option Z;     (* outcome of each successive wait for a byte *)
  rx_pos : nat;            (* waits performed so far *)
  n_reads : nat;           (* calls of [read] so far *)
  tx : list (list Z)       (* frames written, oldest first *)
}.

(** Up to [size] waits, stopping at the first one that times out. *)
Fixpoint read_bytes (size : nat) (line : nat → option Z) (pos : nat)
  : list Z * nat :=
  match size with
  | O => ([], pos)
  | S size' =>
    match line pos with
    | None => ([], S pos)
    | Some b => let '(bs, pos') := read_bytes size' line (S pos) in (b :: bs, pos')
    end
  end.

(** [ser.read(size=n)] *)
Definition ser_read (size : nat) : M Serial (list Z) := fun s =>
  let '(bs, pos') := read_bytes size (rx s) (rx_pos s) in
  Some (Ok bs, mkSerial (rx s) pos' (S (n_reads s)) (tx s)).

(** [ser.write(frame)] *)
Definition sent (frame : list Z) (s : Serial) : Serial :=
  mkSerial (rx s) (rx_pos s) (n_reads s) (tx s ++ [frame]).

Definition ser_write (frame : list Z) : M Serial unit := modify (sent frame).

(** ** read_response *)

Definition max_retries : nat := 10.

(** The loop
    [while byte != b'\xaa' and retries < max_retries: ...]
    from the state in which [byte] and [retries] hold the given values.
    [time.sleep(0.1)] only lets time pass. *)
Fixpoint wait_header (fuel : nat) (byte : list Z) (retries : nat)
  : M Serial (list Z * nat) :=
  if bool_decide (byte ≠ [0xaa]) && (retries <? max_retries)%nat then
    match fuel with
    | O => fun _ => None
    | S fuel' =>
      byte' ← ser_read 1;
      match byte' with
      | [] => wait_header fuel' byte' (S retries)      (* if not byte: retries += 1 *)
      | _ => wait_header fuel' byte' retries
      end
    end
  else mret (byte, retries).

Definition read_response (fuel : nat) : M Serial (list Z) :=
  '(byte, _) ← wait_header fuel [] 0%nat;
  if bool_decide (byte ≠ [0xaa]) then raise (TimeoutError NoResponse)
  else
    d ← ser_read 9;
    if bool_decide (length d ≠ 9%nat)
    then raise (TimeoutError (IncompleteResponse (length d)))
    else mret (byte ++ d).

(** ** Sensor commands *)

Definition cmd_set_mode (fuel : nat) (mode : Z) : M Serial unit :=
  cmd ← lift_result (construct_command_lit CMD_MODE (Some [0x1; mode]));
  ser_write cmd;;
  read_response fuel;;
  mret tt.

Definition cmd_set_sleep (fuel : nat) (sleep : Z) : M Serial unit :=
  let mode := if sleep =? 0 then 1 else 0 in       (* mode = 0 if sleep else 1 *)
  cmd ← lift_result (construct_command_lit CMD_SLEEP (Some [0x1; mode]));
  ser_write cmd;;
  read_response fuel;;
  mret tt.

(** Python's [int / float]: the integer is converted to binary64 (exactly,
    for the 16-bit values that occur here) and divided by the IEEE rule. *)
Definition float_of_int (n : Z) : float := PrimFloat.of_uint63 (Uint63.of_Z n).

(** The value [cmd_query_data] returns for the packet [d] it has read. *)
Definition decode_query (d : list Z) : option float * option float :=
  if (length d =? 10)%nat && (nth 0 d 0 =? 0xaa) && (nth 1 d 0 =? 0xc0)
     && (nth 9 d 0 =? 0xab)
  then
    let pm25 := PrimFloat.div (float_of_int (nth 2 d 0 + nth 3 d 0 * 256)) 10%float in
    let pm10 := PrimFloat.div (float_of_int (nth 4 d 0 + nth 5 d 0 * 256)) 10%float in
    (Some pm25, Some pm10)
  else (None, None).

Definition cmd_query_data (fuel : nat) : M Serial (option float * option float) :=
  cmd ← lift_result (construct_command_lit CMD_QUERY_DATA None);
  ser_write cmd;;
  d ← read_response fuel;
  mret (decode_query d).

(** ** The latest-readings cache *)

Record Cache := mkCache {
  latest_pm25 : option float;
  latest_pm10 : option float;
  last_update : option Z
}.

(** The state [__init__] leaves the three attributes in. *)
Definition init_cache : Cache := mkCache None None None.

(** The three assignments of the critical section in [sensor_loop]. *)
Definition set_latest_pm25 (v : float) (c : Cache) : Cache :=
  mkCache (Some v) (latest_pm10 c) (last_update c).
Definition set_latest_pm10 (v : float) (c : Cache) : Cache :=
  mkCache (latest_pm25 c) (Some v) (last_update c).
Definition set_last_update (t : Z) (c : Cache) : Cache :=
  mkCache (latest_pm25 c) (latest_pm10 c) (Some t).

(** ** new_loop_packet *)

Inductive pyval :=
| VInt (z : Z)
| VFloat (f : float)
| VStr (s : string).

(** The body of [with self.lock: ...], on the packet dictionary. *)
Definition new_loop_packet (c : Cache) (packet : gmap string pyval)
  : gmap string pyval :=
  match latest_pm25 c, latest_pm10 c with
  | Some pm25, Some pm10 =>
    <["pm10_0" := VFloat pm10]> (<["pm2_5" := VFloat pm25]> packet)
  | _, _ => packet
  end.

(** ** The file system seen by write_json

    A path names a regular file (its text and permission bits) or a
    directory.  Every operation below is one system call, atomic with
    respect to other processes; text written through the buffered temporary
    file may reach the file in pieces, down to one character at a time. *)

Inductive node :=
| File (content : string) (mode : Z)
| Dir.

Abbreviation fsmap := (gmap string node).

Inductive fs_op :=
| Makedirs (d : string)              (* os.makedirs(d, mode=0o755, exist_ok=True) *)
| Mkstemp (p : string)               (* NamedTemporaryFile(..., delete=False) creating p *)
| WriteChar (p : string) (c : ascii) (* one more character of the text reaches p *)
| Chmod (p : string) (m : Z)         (* os.chmod(p, m) *)
| Replace (src dst : string).        (* os.replace(src, dst) *)

Definition fs_step (op : fs_op) (fs : fsmap) : result fsmap :=
  match op with
  | Makedirs d =>
    if bool_decide (d = "") then Raise (OSError FileNotFoundError)
    else match fs !! d with
         | Some Dir => Ok fs
         | Some (File _ _) => Raise (OSError FileExistsError)
         | None => Ok (<[d := Dir]> fs)
         end
  | Mkstemp p =>
    match fs !! p with
    | Some _ => Raise (OSError FileExistsError)       (* O_CREAT | O_EXCL *)
    | None => Ok (<[p := File "" 384]> fs)            (* mode 0o600 *)
    end
  | WriteChar p c =>
    match fs !! p with
    | Some (File s m) => Ok (<[p := File (s +:+ String c EmptyString) m]> fs)
    | Some Dir => Raise (OSError IsADirectoryError)
    | None => Raise (OSError FileNotFoundError)
    end
  | Chmod p m =>
    match fs !! p with
    | Some (File s _) => Ok (<[p := File s m]> fs)
    | Some Dir => Ok fs
    | None => Raise (OSError FileNotFoundError)
    end
  | Replace src dst =>
    match fs !! src, fs !! dst with
    | None, _ => Raise (OSError FileNotFoundError)
    | Some (File _ _), Some Dir => Raise (OSError IsADirectoryError)
    | Some Dir, Some (File _ _) => Raise (OSError NotADirectoryError)
    | Some n, _ => Ok (<[dst := n]> (delete src fs))
    end
  end.

Definition fs_do (op : fs_op) : M fsmap unit := fun fs =>
  match fs_step op fs with
  | Ok fs' => Some (Ok tt, fs')
  | Raise e => Some (Raise e, fs)
  end.

Fixpoint fs_exec (ops : list fs_op) : M fsmap unit :=
  match ops with
  | [] => mret tt
  | op :: ops' => fs_do op;; fs_exec ops'
  end.


(** posixpath.dirname and posixpath.join *)

Definition is_sep (c : ascii) : bool := Ascii.eqb c "/".

Fixpoint drop_while {A} (f : A → bool) (l : list A) : list A :=
  match l with
  | [] => []
  | x :: l' => if f x then drop_while f l' else l
  end.

Definition dirname (p : string) : string :=
  (* head = p[:p.rfind('/') + 1] *)
  let head :=
    reverse (drop_while (fun c => negb (is_sep c)) (reverse (String.list_ascii_of_string p))) in
  (* if head and head != '/' * len(head): head = head.rstrip('/') *)
  String.string_of_list_ascii
    (if forallb is_sep head then head
     else reverse (drop_while is_sep (reverse head))).

Definition ends_with_sep (a : string) : bool :=
  match reverse (String.list_ascii_of_string a) with
  | c :: _ => is_sep c
  | [] => false
  end.

Definition path_join (a b : string) : string :=
  if String.prefix "/" b then b
  else if bool_decide (a = "") || ends_with_sep a then a +:+ b
  else a +:+ "/" +:+ b.

(** ** The wall clock

    [time.time()] is answered by the environment: the readings are given as
    exact rationals (seconds), one per call.  [time.sleep] only lets time
    pass, which shows in the readings that follow. *)

Definition Qlt_bool (x y : Q) : bool := negb (Qle_bool y x).

(** [int(x)] on a number: truncation towards zero. *)
Definition int_of_Q (x : Q) : Z := Z.quot (Qnum x) (Z.pos (Qden x)).

(** ** The service *)

Record Config := mkConfig {
  json_output : string;
  log_raw : bool;
  read_period : Z;
  sleep_period : Z;
  sample_interval : Z
}.

Inductive log_event :=
| LogWaking                                         (* info *)
| LogSample (pm25 pm10 : float)                     (* debug *)
| LogReadError (e : exn)                            (* warning *)
| LogPeriodComplete (pm25 pm10 : float) (n : nat)   (* info *)
| LogNoValidSamples                                 (* warning *)
| LogSleeping                                       (* info *)
| LogLoopError (e : exn)                            (* error *)
| LogWriteError (e : exn).                          (* error *)

Record World := mkWorld {
  ser : Serial;
  clock : nat → Q;            (* successive readings of time.time() *)
  clock_pos : nat;            (* readings taken so far *)
  cache : Cache;
  fs : fsmap;
  queries : list (result (option float * option float));
                              (* history: what each cmd_query_data call of
                                 the sampling loop came back with *)
  log : list log_event
}.

Definition on_ser {A} (m : M Serial A) : M World A := fun w =>
  match m (ser w) with
  | None => None
  | Some (r, s') =>
    Some (r, mkWorld s' (clock w) (clock_pos w) (cache w) (fs w) (queries w) (log w))
  end.

Definition on_fs {A} (m : M fsmap A) : M World A := fun w =>
  match m (fs w) with
  | None => None
  | Some (r, fs') =>
    Some (r, mkWorld (ser w) (clock w) (clock_pos w) (cache w) fs' (queries w) (log w))
  end.

Definition on_cache (f : Cache → Cache) : M World unit :=
  modify (fun w =>
    mkWorld (ser w) (clock w) (clock_pos w) (f (cache w)) (fs w) (queries w) (log w)).

Definition log_msg (ev : log_event) : M World unit :=
  modify (fun w =>
    mkWorld (ser w) (clock w) (clock_pos w) (cache w) (fs w) (queries w) (log w ++ [ev])).

Definition note_query (r : result (option float * option float)) (w : World)
  : World :=
  mkWorld (ser w) (clock w) (clock_pos w) (cache w) (fs w) (queries w ++ [r]) (log w).

Definition time_time : M World Q := fun w =>
  Some (Ok (clock w (clock_pos w)),
        mkWorld (ser w) (clock w) (S (clock_pos w)) (cache w) (fs w) (queries w) (log w)).

Definition time_sleep (seconds : Q) : M World unit := mret tt.

(** [self.cmd_query_data()] as the sampling loop calls it, its outcome
    entered in the history. *)
Definition query_noted (fuel : nat) : M World (option float * option float) :=
  fun w =>
    match on_ser (cmd_query_data fuel) w with
    | None => None
    | Some (r, w') => Some (r, note_query r w')
    end.

Section Service.

Variable cfg : Config.
(** [float.__repr__], which [json.dump] uses for the two readings. *)
Variable float_repr : float → string.
(** The path [NamedTemporaryFile] settles on for its file in [dirpath]. *)
Variable tmp_base : string.

Definition dq : string := String "034"%char EmptyString.

Definition json_int (z : Z) : string := NilZero.string_of_int (Z.to_int z).

Definition json_timestamp (ts : option Z) : string :=
  match ts with
  | None => "null"
  | Some z => json_int z
  end.

(** The text [json.dump] produces for
    [{"dateTime": ts, "pm2_5": pm25, "pm10_0": pm10}] *)
Definition json_dumps (ts : option Z) (pm25 pm10 : float) : string :=
  "{" +:+ dq +:+ "dateTime" +:+ dq +:+ ": " +:+ json_timestamp ts +:+ ", "
  +:+ dq +:+ "pm2_5" +:+ dq +:+ ": " +:+ float_repr pm25 +:+ ", "
  +:+ dq +:+ "pm10_0" +:+ dq +:+ ": " +:+ float_repr pm10 +:+ "}".

Definition tmpname : string := path_join (dirname (json_output cfg)) tmp_base.

(** The system calls of the [try] block of [write_json], in program order. *)
Definition write_json_ops (ts : option Z) (pm25 pm10 : float) : list fs_op :=
  let dirpath := dirname (json_output cfg) in
  [Makedirs dirpath; Mkstemp tmpname]
  ++ (WriteChar tmpname <$> String.list_ascii_of_string (json_dumps ts pm25 pm10))
  ++ [Chmod tmpname 420;                       (* 0o644 *)
      Replace tmpname (json_output cfg)].

Definition write_json (ts : option Z) (pm25 pm10 : float) : M World unit :=
  try_except (on_fs (fs_exec (write_json_ops ts pm25 pm10)))
             (fun e => log_msg (LogWriteError e)).

(** The body of [while time.time() - start_time < self.read_period] up to
    the pause: the [try] statement around the query. *)
Definition sample_once (fuel : nat) (samples : list (float * float))
  : M World (list (float * float)) :=
  try_except
    (r ← query_noted fuel;
     match r with
     | (Some pm25, Some pm10) =>
       let samples' := samples ++ [(pm25, pm10)] in      (* samples.append(...) *)
       (if log_raw cfg then log_msg (LogSample pm25 pm10) else mret tt);;
       mret samples'
     | _ => mret samples
     end)
    (fun e => log_msg (LogReadError e);; mret samples).

(** The [while time.time() - start_time < self.read_period] loop. *)
Fixpoint sampling (fuel : nat) (start_time : Q) (samples : list (float * float))
  : M World (list (float * float)) :=
  match fuel with
  | O => fun _ => None
  | S fuel' =>
    now ← time_time;
    if Qlt_bool (now - start_time) (inject_Z (read_period cfg)) then
      samples' ← sample_once fuel' samples;
      time_sleep (inject_Z (sample_interval cfg));;
      sampling fuel' start_time samples'
    else mret samples
  end.

(** [# Use last valid sample] to the end of the [if samples: ... else: ...]. *)
Definition publish (samples : list (float * float)) : M World unit :=
  match samples with
  | [] => log_msg LogNoValidSamples
  | _ :: _ =>
    match samples !! (length samples - 1)%nat with      (* samples[-1] *)
    | None => raise IndexError
    | Some (pm25, pm10) =>
      (* with self.lock: *)
      on_cache (set_latest_pm25 pm25);;
      on_cache (set_latest_pm10 pm10);;
      now ← time_time;
      on_cache (set_last_update (int_of_Q now));;
      log_msg (LogPeriodComplete pm25 pm10 (length samples));;
      w ← get;
      write_json (last_update (cache w)) pm25 pm10
    end
  end.

(** The body of the [try] in one round of [while self.running]. *)
Definition cycle_body (fuel : nat) : M World unit :=
  log_msg LogWaking;;
  on_ser (cmd_set_sleep fuel 0);;
  time_sleep 1;;
  start_time ← time_time;
  samples ← sampling fuel start_time [];
  publish samples;;
  log_msg LogSleeping;;
  on_ser (cmd_set_sleep fuel 1);;
  time_sleep (inject_Z (sleep_period cfg)).

(** One round of [while self.running]. *)
Definition cycle (fuel : nat) : M World unit :=
  try_except (cycle_body fuel)
             (fun e => log_msg (LogLoopError e);; time_sleep 10).

End Service.

(** ** The two threads and the lock

    The worker thread ([sensor_loop]) and the host thread (the engine calling
    [new_loop_packet]) interleave statement by statement; [self.lock] is
    held by at most one of them. *)

Inductive thread := Worker | Host.

Inductive worker_pc :=
| WOutside                                 (* anywhere else in [sensor_loop]:
                                              no statement there assigns
                                              the cache *)
| WAssigning (done : nat) (pm25 pm10 : float).
                                           (* lock held, [done] of the three
                                              assignments performed *)

Inductive host_pc :=
| HOutside
| HLocked        (* lock held, [if] not yet evaluated *)
| HDone.         (* packet updated, lock still held *)

Record Sys := mkSys {
  sys_cache : Cache;
  sys_lock : option thread;
  sys_worker : worker_pc;
  sys_host : host_pc;
  sys_packet : gmap string pyval
}.

Definition init_sys (packet : gmap string pyval) : Sys :=
  mkSys init_cache None WOutside HOutside packet.

Inductive step : Sys → Sys → Prop :=
| step_worker_acquire c h pkt pm25 pm10 :
    (* with self.lock: entered with the last sample in pm25, pm10 *)
    step (mkSys c None WOutside h pkt)
         (mkSys c (Some Worker) (WAssigning 0 pm25 pm10) h pkt)
| step_worker_pm25 c h pkt pm25 pm10 :
    (* self.latest_pm25 = pm25 *)
    step (mkSys c (Some Worker) (WAssigning 0 pm25 pm10) h pkt)
         (mkSys (set_latest_pm25 pm25 c) (Some Worker) (WAssigning 1 pm25 pm10) h pkt)
| step_worker_pm10 c h pkt pm25 pm10 :
    (* self.latest_pm10 = pm10 *)
    step (mkSys c (Some Worker) (WAssigning 1 pm25 pm10) h pkt)
         (mkSys (set_latest_pm10 pm10 c) (Some Worker) (WAssigning 2 pm25 pm10) h pkt)
| step_worker_update c h pkt pm25 pm10 (now : Q) :
    (* self.last_update = int(time.time()) *)
    step (mkSys c (Some Worker) (WAssigning 2 pm25 pm10) h pkt)
         (mkSys (set_last_update (int_of_Q now) c) (Some Worker)
                (WAssigning 3 pm25 pm10) h pkt)
| step_worker_release c h pkt pm25 pm10 :
    step (mkSys c (Some Worker) (WAssigning 3 pm25 pm10) h pkt)
         (mkSys c None WOutside h pkt)
| step_host_acquire c w pkt pkt' :
    (* with self.lock: entered for a new event, which has its own packet *)
    step (mkSys c None w HOutside pkt)
         (mkSys c (Some Host) w HLocked pkt')
| step_host_enrich c w pkt :
    step (mkSys c (Some Host) w HLocked pkt)
         (mkSys c (Some Host) w HDone (new_loop_packet c pkt))
| step_host_release c w pkt :
    step (mkSys c (Some Host) w HDone pkt)
         (mkSys c None w HOutside pkt).



(** ** Vocabulary of the statements *)

(** How many of the [n] waits from [pos] on end with the timeout. *)
Fixpoint timeouts_in (line : nat → option Z) (pos n : nat) : nat :=
  match n with
  | O => 0
  | S n' => ((if line pos is None then 1 else 0) + timeouts_in line (S pos) n')%nat
  end.

(** One of the [n] waits from [pos] on delivers the header byte. *)
Definition header_in (line : nat → option Z) (pos n : nat) : Prop :=
  ∃ i, (i < n)%nat ∧ line (pos + i)%nat = Some 0xaa.

(** The scan for the header, entered with [r] retries counted, is over
    within [n] waits from [pos] on: the header has come, or the retries
    have reached the bound. *)
Definition scan_over (line : nat → option Z) (pos r n : nat) : Prop :=
  header_in line pos n ∨ (max_retries ≤ r + timeouts_in line pos n)%nat.

(** The port after [k] single-byte reads. *)
Definition after_reads (k : nat) (s : Serial) : Serial :=
  mkSerial (rx s) (rx_pos s + k) (n_reads s + k) (tx s).

(** The frame [construct_command(CMD_QUERY_DATA)] builds. *)
Definition query_frame : list Z :=
  [0xaa; 0xb4; 4; 0; 0; 0; 0; 0; 0; 0; 0; 0; 0; 0; 0; 0xff; 0xff; 2; 0xab].



(** A line that delivers the given outcomes and then stays silent. *)
Definition line_of (l : list (option Z)) : nat → option Z :=
  fun i => l !! i ≫= id.

(** A query came back without a reading: it raised, or it returned
    [(None, None)]. *)
Definition no_reading (q : result (option float * option float)) : Prop :=
  match q with
  | Ok (Some _, Some _) => False
  | _ => True
  end.

(** The samples the loop keeps from a run of query outcomes. *)
Definition valid_samples (qs : list (result (option float * option float)))
  : list (float * float) :=
  omap (fun q => match q with
                 | Ok (Some pm25, Some pm10) => Some (pm25, pm10)
                 | _ => None
                 end) qs.

(** Two states of the service with the same cache, files and query
    history. *)
Definition frame (w w' : World) : Prop :=
  cache w' = cache w ∧ fs w' = fs w ∧ queries w' = queries w.

(** What a round of the loop amounts to, from [w] to [w']: either it was cut
    short before the sampling loop and changed neither the cache nor the
    files nor the history; or the sampling loop made the queries [qs],
    [publish] ran on the samples kept from them, and nothing else touched
    the cache, the files or the history. *)
Definition round_outcome (cfg : Config) (float_repr : float → string)
  (tmp_base : string) (w w' : World) : Prop :=
  frame w w'
  ∨ ∃ (qs : list (result (option float * option float)))
      (w1 w2 : World) (r : result unit),
      cache w1 = cache w ∧ fs w1 = fs w ∧ queries w1 = queries w ++ qs
      ∧ publish cfg float_repr tmp_base (valid_samples qs) w1 = Some (r, w2)
      ∧ frame w2 w'.

(** ** Concrete instances *)

Definition example_cfg : Config := mkConfig "/www/particles.txt" true 4 60 1.

Definition example_repr : float → string := λ _, "3.0".

(** The answer of the sensor to a query, for two raw 8-bit counts. *)
Definition example_reply (pm25 pm10 : Z) : list (option Z) :=
  Some <$> [0xaa; 0xc0; pm25; 0; pm10; 0; 0; 0; 0; 0xab].

(** The answer of the sensor to a sleep or wake command. *)
Definition example_ack : list (option Z) :=
  Some <$> [0xaa; 0xc5; 6; 1; 1; 0; 0; 0; 8; 0xab].

(** A service on the given line, with a clock that reads 0, 1, 2, ...
    seconds, an empty cache and no files. *)
Definition example_world (line : list (option Z)) : World :=
  mkWorld (mkSerial (line_of line) 0 0 []) (λ n, inject_Z (Z.of_nat n)) 0
          init_cache ∅ [] [].


(** * Further vocabulary *)

(** The frames [cmd_set_sleep] and [cmd_set_mode] put on the wire. *)
Definition sleep_frame (sleep : Z) : list Z :=
  [0xaa; 0xb4; 6; 1; if sleep =? 0 then 1 else 0;
   0; 0; 0; 0; 0; 0; 0; 0; 0; 0; 0xff; 0xff;
   if sleep =? 0 then 6 else 5; 0xab].

Definition mode_frame (mode : Z) : list Z :=
  [0xaa; 0xb4; 2; 1; mode; 0; 0; 0; 0; 0; 0; 0; 0; 0; 0; 0xff; 0xff;
   (mode + 1) mod 256; 0xab].

(** A test on every byte value, and on every 16-bit count given as the
    two bytes the sensor sends. *)
Definition all_bytes (f : Z → bool) : bool :=
  forallb (λ n, f (Z.of_nat n)) (seq 0 256).

Definition all_counts (f : Z → bool) : bool :=
  all_bytes (λ hi, all_bytes (λ lo, f (lo + hi * 256))).

(** A reading lies between 0 and 6553.5, and ten times the reading is the
    count it was decoded from ([==] on floats). *)
Definition reading_of_count (count : Z) (reading : float) : bool :=
  PrimFloat.leb 0 reading && PrimFloat.leb reading 6553.5
  && PrimFloat.eqb (PrimFloat.mul reading 10) (float_of_int count).



(** What the sampling loop logs for one query outcome. *)
Definition sample_log (cfg : Config) (q : result (option float * option float))
  : list log_event :=
  match q with
  | Ok (Some pm25, Some pm10) => if log_raw cfg then [LogSample pm25 pm10] else []
  | Ok _ => []
  | Raise e => [LogReadError e]
  end.

(** The clock reading [i] places after those taken so far lies within the
    read period that began at [start_time]. *)
Definition within_period (cfg : Config) (start_time : Q) (w : World) (i : nat) : bool :=
  Qlt_bool (clock w (clock_pos w + i)%nat - start_time) (inject_Z (read_period cfg)).

(** * The service object around the rounds

    [initialize_sensor], [sensor_loop] and [shutDown] use, besides the state
    of a round: whether [self.ser] is a port ([__init__] sets it to [None]
    and returns at once when the port cannot be opened, before
    [self.running] and [self.thread] are assigned); what [flushInput]
    finds in the input buffer; and what the tests of [self.running] find,
    the flag being cleared by the other thread.  Their log lines are kept
    in a journal of their own. *)

Inductive service_event :=
| LogInitAttempt (attempt : nat)                    (* info *)
| LogInitOk                                         (* info *)
| LogInitAttemptFailed (attempt : nat) (e : exn)    (* warning *)
| LogInitGaveUp                                     (* the two error lines *)
| LogBackgroundInit                                 (* info *)
| LogBackgroundInitOk                               (* info *)
| LogBackgroundInitFailed (e : exn)                 (* warning *)
| LogShuttingDown.                                  (* info *)

Record Service := mkService {
  world : World;
  opened : bool;              (* [self.ser] is a port, not [None] *)
  closed : bool;              (* [self.ser.close()] has been called *)
  buffered : nat → nat;       (* bytes waiting in the input buffer at each
                                 successive [flushInput] *)
  n_flush : nat;              (* calls of [flushInput] so far *)
  running : nat → bool;       (* what each successive test of
                                 [self.running] finds *)
  n_running : nat;            (* tests so far *)
  journal : list service_event
}.

Definition on_world {A} (m : M World A) : M Service A := fun sv =>
  match m (world sv) with
  | None => None
  | Some (r, w') =>
    Some (r, mkService w' (opened sv) (closed sv) (buffered sv) (n_flush sv)
                       (running sv) (n_running sv) (journal sv))
  end.

Definition journal_msg (ev : service_event) : M Service unit :=
  modify (fun sv =>
    mkService (world sv) (opened sv) (closed sv) (buffered sv) (n_flush sv)
              (running sv) (n_running sv) (journal sv ++ [ev])).

(** The position on the line after up to [k] bytes that were waiting have
    been thrown away: only waits that deliver a byte are used up. *)
Fixpoint discard_waiting (k : nat) (line : nat → option Z) (pos : nat) : nat :=
  match k with
  | O => pos
  | S k' =>
    match line pos with
    | Some _ => discard_waiting k' line (S pos)
    | None => pos
    end
  end.

(** [self.ser.flushInput()] *)
Definition flush_input : M Service unit :=
  modify (fun sv =>
    let w := world sv in
    let s := ser w in
    let s' := mkSerial (rx s) (discard_waiting (buffered sv (n_flush sv)) (rx s) (rx_pos s))
                       (n_reads s) (tx s) in
    mkService (mkWorld s' (clock w) (clock_pos w) (cache w) (fs w) (queries w) (log w))
              (opened sv) (closed sv) (buffered sv) (S (n_flush sv))
              (running sv) (n_running sv) (journal sv)).

(** The test of [while self.running]. *)
Definition test_running : M Service bool := fun sv =>
  Some (Ok (running sv (n_running sv)),
        mkService (world sv) (opened sv) (closed sv) (buffered sv) (n_flush sv)
                  (running sv) (S (n_running sv)) (journal sv)).

(** [self.running = False]: every later test finds the flag cleared. *)
Definition stop_running : M Service unit :=
  modify (fun sv =>
    mkService (world sv) (opened sv) (closed sv) (buffered sv) (n_flush sv)
              (fun _ => false) (n_running sv) (journal sv)).

(** [self.ser.close()] *)
Definition close_port : M Service unit :=
  modify (fun sv =>
    mkService (world sv) (opened sv) true (buffered sv) (n_flush sv)
              (running sv) (n_running sv) (journal sv)).

(** ** initialize_sensor *)

Definition init_retries : nat := 3.

(** Wake the sensor, pause, flush stale data, set query mode: the
    statements between the two log lines of the [try] block, the same in
    [initialize_sensor] and at the head of [sensor_loop]. *)
Definition wake_and_set_mode (fuel : nat) : M Service unit :=
  on_world (on_ser (cmd_set_sleep fuel 0));;
  on_world (time_sleep 2);;
  flush_input;;
  on_world (on_ser (cmd_set_mode fuel MODE_QUERY)).

(** [for attempt in ...:] over the attempts still to make; the [try] block
    ends with [return]. *)
Fixpoint initialize_attempts (fuel : nat) (attempts : list nat) : M Service unit :=
  match attempts with
  | [] => mret tt
  | attempt :: rest =>
    returned ←
      try_except
        (journal_msg (LogInitAttempt attempt);;
         wake_and_set_mode fuel;;
         journal_msg LogInitOk;;
         mret true)
        (fun e =>
           journal_msg (LogInitAttemptFailed attempt e);;
           (if (attempt <? init_retries - 1)%nat then on_world (time_sleep 3)
            else journal_msg LogInitGaveUp);;
           mret false);
    if returned : bool then mret tt else initialize_attempts fuel rest
  end.

Definition initialize_sensor (fuel : nat) : M Service unit :=
  initialize_attempts fuel (seq 0 init_retries).

(** ** sensor_loop *)

Section Loop.

Variable cfg : Config.
Variable float_repr : float → string.
Variable tmp_base : string.

(** [while self.running: ...] *)
Fixpoint rounds (fuel : nat) : M Service unit :=
  match fuel with
  | O => fun _ => None
  | S fuel' =>
    go ← test_running;
    if go : bool then
      on_world (cycle cfg float_repr tmp_base fuel');;
      rounds fuel'
    else mret tt
  end.

Definition sensor_loop (fuel : nat) : M Service unit :=
  sv ← get;
  if opened sv then
    try_except
      (journal_msg LogBackgroundInit;;
       wake_and_set_mode fuel;;
       journal_msg LogBackgroundInitOk)
      (fun e => journal_msg (LogBackgroundInitFailed e));;
    rounds fuel
  else mret tt.                                     (* if not self.ser: return *)

End Loop.

(** ** shutDown

    [self.thread] is assigned by [__init__] only after the port has been
    opened, and the base class [StdService] assigns no attribute of that
    name: on a service whose port could not be opened, reading it raises
    AttributeError. *)

Inductive shutdown_outcome :=
| Returned
| AttributeError (attribute : string).

Definition shutDown (fuel : nat) (sv : Service) : option (shutdown_outcome * Service) :=
  match (journal_msg LogShuttingDown;; stop_running) sv with
  | Some (_, sv1) =>
    if opened sv1 then
      (* if self.thread and self.thread.is_alive(): self.thread.join(timeout=5) *)
      (* if self.ser: try: self.cmd_set_sleep(1) / except: pass *)
      match (try_except (on_world (on_ser (cmd_set_sleep fuel 1)))
                        (fun _ => mret tt);;
             close_port) sv1 with
      | Some (_, sv2) => Some (Returned, sv2)
      | None => None
      end
    else Some (AttributeError "thread", sv1)
  | None => None
  end.

(** The frames a round may send. *)
Definition round_frame (f : list Z) : Prop :=
  f = sleep_frame 0 ∨ f = query_frame ∨ f = sleep_frame 1.

(** The frames an initialisation may send. *)
Definition init_frame (f : list Z) : Prop :=
  f = sleep_frame 0 ∨ f = mode_frame MODE_QUERY.

(** The journal of a run of failed attempts, numbered from [attempt]
    on. *)
Fixpoint failed_attempts (attempt : nat) (failures : list exn) : list service_event :=
  match failures with
  | [] => []
  | e :: rest =>
    LogInitAttempt attempt :: LogInitAttemptFailed attempt e
      :: failed_attempts (S attempt) rest
  end.

(** The cache is as it was, or holds a complete set of readings. *)
Definition cache_kept (c c' : Cache) : Prop :=
  c' = c ∨ ∃ pm25 pm10 ts, c' = mkCache (Some pm25) (Some pm10) (Some ts).

(** The service with another world. *)
Definition with_world (w : World) (sv : Service) : Service :=
  mkService w (opened sv) (closed sv) (buffered sv) (n_flush sv)
            (running sv) (n_running sv) (journal sv).

(** The world with another port. *)
Definition with_ser (s : Serial) (w : World) : World :=
  mkWorld s (clock w) (clock_pos w) (cache w) (fs w) (queries w) (log w).

(** A service on the given line whose port is open, whose input buffer is
    empty at every flush and whose [running] flag is found set [n]
    times. *)
Definition example_service (line : list (option Z)) (n : nat) : Service :=
  mkService (example_world line) true false (fun _ => 0%nat) 0
            (fun i => (i <? n)%nat) 0 [].

(** ** The samples behind the cache

    A run of the two threads together with the samples the worker has
    entered its critical section with, oldest first. *)

Definition entered_with (s s' : Sys) : list (float * float) :=
  match sys_worker s, sys_worker s' with
  | WOutside, WAssigning _ pm25 pm10 => [(pm25, pm10)]
  | _, _ => []
  end.

Inductive run : list (float * float) → Sys → Prop :=
| run_init pkt : run [] (init_sys pkt)
| run_step hist s s' : run hist s → step s s' → run (hist ++ entered_with s s') s'.

(** The two readings of the cache are those of the last sample of the
    run, or absent when there has been none. *)
Definition readings_of (hist : list (float * float)) (c : Cache) : Prop :=
  match last hist with
  | None => latest_pm25 c = None ∧ latest_pm10 c = None
  | Some (pm25, pm10) => latest_pm25 c = Some pm25 ∧ latest_pm10 c = Some pm10
  end.

Definition run_invariant (hist : list (float * float)) (s : Sys) : Prop :=
  match sys_worker s with
  | WOutside => sys_lock s ≠ Some Worker ∧ readings_of hist (sys_cache s)
  | WAssigning k pm25 pm10 =>
    sys_lock s = Some Worker
    ∧ last hist = Some (pm25, pm10)
    ∧ ((1 ≤ k)%nat → latest_pm25 (sys_cache s) = Some pm25)
    ∧ ((2 ≤ k)%nat → latest_pm10 (sys_cache s) = Some pm10)
    ∧ (k ≤ 3)%nat
  end
  ∧ match sys_host s with
    | HOutside => sys_lock s ≠ Some Host
    | _ => sys_lock s = Some Host
    end.

(** ** When the loops end *)

(** The line falls silent: from the [n]-th wait on, every wait times
    out. *)
Definition silent_from (line : nat → option Z) (n : nat) : Prop :=
  ∀ i, (n ≤ i)%nat → line i = None.

(** The clock advances: whenever a read period starts, one of the next
    [bound + 1] readings shows it over. *)
Definition clock_advances (cfg : Config) (clock : nat → Q) (bound : nat) : Prop :=
  ∀ p, ∃ j, (j ≤ bound)%nat
            ∧ Qlt_bool (clock (p + 1 + j)%nat - clock p) (inject_Z (read_period cfg))
              = false.

(** * Properties *)

(** ** construct_command *)

Lemma sum_app_zeros (l : list Z) (k : nat) : sum (l ++ replicate k 0) = sum l.
Proof.
  unfold sum. rewrite fold_left_app. generalize (fold_left Z.add l 0).
  induction k as [|k IH]; intros a; simpl; [done|].
  rewrite Z.add_0_r. apply IH.
Qed.

(** Padding adds nothing to the sum: the checksum is that of the data. *)
Lemma checksum_of_padded (cmd : Z) (data : list Z) :
  checksum_of cmd (zero_padded data) = (sum data + cmd - 2) mod 256.
Proof. unfold checksum_of, zero_padded. by rewrite sum_app_zeros. Qed.

Lemma is_byte_spec (z : Z) : is_byte z = true ↔ byte_value z.
Proof. unfold is_byte, byte_value. rewrite andb_true_iff. lia. Qed.

Lemma bytes_ok (l : list Z) : Forall byte_value l → bytes l = Ok l.
Proof.
  intros H. unfold bytes.
  replace (forallb is_byte l) with true; [done|].
  symmetry. apply forallb_forall. intros x Hx. apply is_byte_spec.
  rewrite Forall_forall in H. apply H. by apply list_elem_of_In.
Qed.

Lemma bytes_raise (l : list Z) (e : exn) : bytes l = Raise e → e = ValueError.
Proof. unfold bytes. destruct (forallb is_byte l); congruence. Qed.

Lemma zero_padded_length (data : list Z) :
  (length data ≤ 12)%nat → length (zero_padded data) = 12%nat.
Proof. intros H. unfold zero_padded. rewrite length_app, length_replicate. lia. Qed.

Lemma zero_padded_bytes (data : list Z) :
  Forall byte_value data → Forall byte_value (zero_padded data).
Proof.
  intros H. unfold zero_padded. apply Forall_app. split; [done|].
  apply Forall_replicate. unfold byte_value. lia.
Qed.

Lemma zero_padded_full (data : list Z) :
  length data = 12%nat → zero_padded data = data.
Proof. intros H. unfold zero_padded. rewrite H. simpl. apply app_nil_r. Qed.

Lemma checksum_byte (cmd : Z) (l : list Z) : byte_value (checksum_of cmd l).
Proof. unfold byte_value, checksum_of. apply Z.mod_pos_bound. lia. Qed.

(** The outcome of a call, from the contents of the argument on entry. *)
Lemma construct_command_result (cmd : Z) (arg : option loc) (data : list Z) (h : heap) :
  arg_value h arg = Some data →
  (construct_command cmd arg h).1 =
    if (12 <? length data)%nat then Raise AssertionError
    else
      b1 ← bytes [cmd];
      b2 ← bytes (zero_padded data);
      b3 ← bytes [checksum_of cmd (zero_padded data)];
      Ok ([0xaa; 0xb4] ++ b1 ++ b2 ++ [0xff; 0xff] ++ b3 ++ [0xab]).
Proof.
  intros Harg. unfold construct_command.
  destruct arg as [l|]; simpl in Harg.
  - rewrite Harg. by destruct (12 <? length data)%nat.
  - injection Harg as <-. rewrite lookup_insert_eq. reflexivity.
Qed.

Lemma construct_command_frame (cmd : Z) (arg : option loc) (data : list Z) (h : heap) :
  arg_value h arg = Some data → (length data ≤ 12)%nat →
  byte_value cmd → Forall byte_value data →
  (construct_command cmd arg h).1 =
    Ok ([0xaa; 0xb4; cmd] ++ zero_padded data
        ++ [0xff; 0xff; checksum_of cmd (zero_padded data); 0xab]).
Proof.
  intros Harg Hlen Hcmd Hdata.
  rewrite (construct_command_result _ _ _ _ Harg).
  replace (12 <? length data)%nat with false by (symmetry; apply Nat.ltb_ge; lia).
  rewrite (bytes_ok [cmd]) by (by apply Forall_singleton).
  rewrite (bytes_ok (zero_padded data)) by (by apply zero_padded_bytes).
  rewrite (bytes_ok [checksum_of _ _]) by (apply Forall_singleton, checksum_byte).
  reflexivity.
Qed.

(** What a call leaves in the list object it was given. *)
Lemma construct_command_heap (cmd : Z) (l : loc) (data : list Z) (h : heap) :
  h !! l = Some data → (length data ≤ 12)%nat →
  (construct_command cmd (Some l) h).2 = <[l := zero_padded data]> h.
Proof.
  intros Hl Hlen. unfold construct_command. rewrite Hl.
  by replace (12 <? length data)%nat with false by (symmetry; apply Nat.ltb_ge; lia).
Qed.

(** A second call on the same list object builds the same frame: the
    object is already padded, and padding adds nothing to the sum. *)
Lemma construct_command_again (cmd : Z) (l : loc) (data : list Z) (h : heap) :
  h !! l = Some data → (length data ≤ 12)%nat →
  (construct_command cmd (Some l) (construct_command cmd (Some l) h).2).1
  = (construct_command cmd (Some l) h).1.
Proof.
  intros Hl Hlen.
  rewrite (construct_command_heap _ _ _ _ Hl Hlen).
  rewrite (construct_command_result cmd (Some l) (zero_padded data));
    [|simpl; apply lookup_insert_eq].
  rewrite (construct_command_result cmd (Some l) data h Hl).
  rewrite zero_padded_length by done.
  replace (12 <? length data)%nat with false by (symmetry; apply Nat.ltb_ge; lia).
  simpl (12 <? 12)%nat. cbv iota.
  rewrite (zero_padded_full (zero_padded data)) by (by apply zero_padded_length).
  reflexivity.
Qed.

(** C1: for a command code in {2, 4, 6} and a data sequence of at most 12
    byte values, the call returns a frame whose byte 17 is
    (sum of the zero-padded data + command - 2) mod 256. *)
Theorem construct_command_checksum
  (cmd : Z) (arg : option loc) (data : list Z) (h : heap) :
  cmd = CMD_MODE ∨ cmd = CMD_QUERY_DATA ∨ cmd = CMD_SLEEP →
  arg_value h arg = Some data →
  (length data ≤ 12)%nat →
  Forall byte_value data →
  ∃ frame,
    (construct_command cmd arg h).1 = Ok frame
    ∧ frame !! 17%nat = Some ((sum (zero_padded data) + cmd - 2) mod 256).
Proof.
  intros Hcmd Harg Hlen Hdata.
  eexists. split.
  - apply (construct_command_frame _ _ _ _ Harg Hlen); [|done].
    unfold byte_value, CMD_MODE, CMD_QUERY_DATA, CMD_SLEEP in *. lia.
  - pose proof (zero_padded_length data Hlen) as Hp.
    change ([0xaa; 0xb4; cmd] ++ zero_padded data ++ ?t)
      with (0xaa :: 0xb4 :: cmd :: (zero_padded data ++ t)).
    simpl. rewrite lookup_app_r by lia. rewrite Hp. reflexivity.
Qed.

Lemma construct_command_checksum_witness :
  ∃ frame,
    (construct_command 6 (Some 1%positive) {[ 1%positive := [1; 1] ]}).1 = Ok frame
    ∧ frame !! 17%nat = Some ((sum (zero_padded [1; 1]) + 6 - 2) mod 256).
Proof.
  apply (construct_command_checksum 6 (Some 1%positive) [1; 1]).
  - right; right; reflexivity.
  - reflexivity.
  - simpl; lia.
  - repeat constructor; unfold byte_value; lia.
Defined.

(** C7: the call raises the assertion failure exactly when the data sequence
    is longer than 12; for a sequence of at most 12 byte values (and a
    command code that is a byte) it returns the 19-byte frame
    AA B4, command, the 12 zero-padded data bytes, FF FF, checksum, AB. *)
Theorem construct_command_shape
  (cmd : Z) (arg : option loc) (data : list Z) (h : heap) :
  arg_value h arg = Some data →
  ((construct_command cmd arg h).1 = Raise AssertionError ↔ (12 < length data)%nat)
  ∧ ((length data ≤ 12)%nat → byte_value cmd → Forall byte_value data →
     ∃ frame,
       (construct_command cmd arg h).1 = Ok frame
       ∧ length frame = 19%nat
       ∧ frame = [0xaa; 0xb4] ++ [cmd] ++ zero_padded data
                 ++ [0xff; 0xff] ++ [checksum_of cmd (zero_padded data)] ++ [0xab]
       ∧ length (zero_padded data) = 12%nat
       ∧ take (length data) (zero_padded data) = data
       ∧ drop (length data) (zero_padded data) = replicate (12 - length data) 0).
Proof.
  intros Harg. split.
  - rewrite (construct_command_result _ _ _ _ Harg).
    destruct (Nat.ltb_spec 12 (length data)) as [Hlt|Hge].
    + split; [intros _; lia|done].
    + split; [|lia]. intros H. exfalso.
      destruct (bytes [cmd]) eqn:E1; simpl in H;
        [|apply bytes_raise in E1; congruence].
      destruct (bytes (zero_padded data)) eqn:E2; simpl in H;
        [|apply bytes_raise in E2; congruence].
      destruct (bytes [checksum_of cmd (zero_padded data)]) eqn:E3; simpl in H;
        [discriminate|apply bytes_raise in E3; congruence].
  - intros Hlen Hcmd Hdata. eexists.
    split; [by apply (construct_command_frame _ _ _ _ Harg)|].
    pose proof (zero_padded_length data Hlen) as Hp.
    split; [|split; [reflexivity|split; [done|]]].
    + rewrite length_app. simpl. rewrite length_app, Hp. reflexivity.
    + unfold zero_padded. split.
      * by rewrite take_app_length.
      * by rewrite drop_app_length.
Qed.

Lemma construct_command_shape_witness :
  ((construct_command 2 (Some 1%positive) {[ 1%positive := [1; 1] ]}).1
     = Raise AssertionError ↔ (12 < length [1; 1])%nat)
  ∧ ∃ frame,
      (construct_command 2 (Some 1%positive) {[ 1%positive := [1; 1] ]}).1 = Ok frame
      ∧ length frame = 19%nat
      ∧ frame = [0xaa; 0xb4] ++ [2] ++ zero_padded [1; 1]
                ++ [0xff; 0xff] ++ [checksum_of 2 (zero_padded [1; 1])] ++ [0xab]
      ∧ length (zero_padded [1; 1]) = 12%nat
      ∧ take (length [1; 1]) (zero_padded [1; 1]) = [1; 1]
      ∧ drop (length [1; 1]) (zero_padded [1; 1]) = replicate (12 - length [1; 1]) 0.
Proof.
  assert (arg_value {[ 1%positive := [1; 1] ]} (Some 1%positive) = Some [1; 1])
    as Harg by reflexivity.
  destruct (construct_command_shape 2 (Some 1%positive) [1; 1] _ Harg) as [H1 H2].
  split; [exact H1|].
  apply H2.
  - simpl; lia.
  - unfold byte_value; lia.
  - repeat constructor; unfold byte_value; lia.
Defined.

(** C8 (fails on the code): the call is deterministic, but it is not free of
    side effects.  Called with the list [1, 1], the call leaves that same
    list object holding twelve items: the caller's sequence is not what it
    was before the call. *)
Theorem construct_command_extends_argument :
  let h : heap := {[ 1%positive := [1; 1] ]} in
  h !! 1%positive = Some [1; 1]
  ∧ (construct_command CMD_MODE (Some 1%positive) h).1
    = Ok [0xaa; 0xb4; 2; 1; 1; 0; 0; 0; 0; 0; 0; 0; 0; 0; 0; 0xff; 0xff; 2; 0xab]
  ∧ (construct_command CMD_MODE (Some 1%positive) h).2 !! 1%positive
    = Some [1; 1; 0; 0; 0; 0; 0; 0; 0; 0; 0; 0].
Proof. vm_compute. repeat split. Qed.

(** ** The monad *)

Lemma bind_ok {S A B} (m : M S A) (f : A → M S B) (s s1 : S) (a : A) :
  m s = Some (Ok a, s1) → (m ≫= f) s = f a s1.
Proof. intros H. unfold mbind, M_bind. by rewrite H. Qed.

Lemma bind_raise {S A B} (m : M S A) (f : A → M S B) (s s1 : S) (e : exn) :
  m s = Some (Raise e, s1) → (m ≫= f) s = Some (Raise e, s1).
Proof. intros H. unfold mbind, M_bind. by rewrite H. Qed.

Lemma bind_none {S A B} (m : M S A) (f : A → M S B) (s : S) :
  m s = None → (m ≫= f) s = None.
Proof. intros H. unfold mbind, M_bind. by rewrite H. Qed.

Lemma bind_inv {S A B} (m : M S A) (f : A → M S B) (s s' : S) (r : result B) :
  (m ≫= f) s = Some (r, s') →
  (∃ a s1, m s = Some (Ok a, s1) ∧ f a s1 = Some (r, s'))
  ∨ (∃ e, m s = Some (Raise e, s') ∧ r = Raise e).
Proof.
  unfold mbind, M_bind. destruct (m s) as [[[a|e] s1]|]; [eauto| |done].
  intros [= <- <-]. eauto.
Qed.

(** ** read_response *)

Lemma ser_read_1 (s : Serial) :
  ser_read 1 s =
    Some (Ok (match rx s (rx_pos s) with Some b => [b] | None => [] end),
          after_reads 1 s).
Proof.
  unfold ser_read, after_reads. simpl.
  rewrite !Nat.add_1_r. by destruct (rx s (rx_pos s)).
Qed.

Lemma after_reads_0 (s : Serial) : after_reads 0 s = s.
Proof. destruct s. unfold after_reads. simpl. by rewrite !Nat.add_0_r. Qed.

Lemma after_reads_S (k : nat) (s : Serial) :
  after_reads k (after_reads 1 s) = after_reads (S k) s.
Proof. unfold after_reads. simpl. f_equal; lia. Qed.

Lemma wait_header_done (fuel : nat) (b : list Z) (r : nat) (s : Serial) :
  b = [0xaa] ∨ (max_retries ≤ r)%nat →
  wait_header fuel b r s = Some (Ok (b, r), s).
Proof.
  intros H.
  assert (bool_decide (b ≠ [0xaa]) && (r <? max_retries)%nat = false) as E.
  { destruct H as [->|H].
    - by rewrite bool_decide_eq_false_2 by (intros ?; done).
    - apply andb_false_iff. right. by apply Nat.ltb_ge. }
  destruct fuel; simpl; by rewrite E.
Qed.

Lemma wait_header_step (fuel : nat) (b : list Z) (r : nat) (s : Serial) :
  b ≠ [0xaa] → (r < max_retries)%nat →
  wait_header (S fuel) b r s =
    match rx s (rx_pos s) with
    | None => wait_header fuel [] (S r) (after_reads 1 s)
    | Some c => wait_header fuel [c] r (after_reads 1 s)
    end.
Proof.
  intros Hb Hr. simpl.
  rewrite bool_decide_eq_true_2 by done.
  replace (r <? max_retries)%nat with true by (symmetry; by apply Nat.ltb_lt).
  simpl. rewrite (bind_ok _ _ _ _ _ (ser_read_1 s)).
  by destruct (rx s (rx_pos s)).
Qed.

Lemma wait_header_out_of_fuel (b : list Z) (r : nat) (s : Serial) :
  b ≠ [0xaa] → (r < max_retries)%nat → wait_header 0 b r s = None.
Proof.
  intros Hb Hr. simpl.
  rewrite bool_decide_eq_true_2 by done.
  by replace (r <? max_retries)%nat with true by (symmetry; by apply Nat.ltb_lt).
Qed.

Lemma header_in_S (line : nat → option Z) (pos n : nat) :
  header_in line pos (S n) ↔ line pos = Some 0xaa ∨ header_in line (S pos) n.
Proof.
  unfold header_in. split.
  - intros (i & Hi & H). destruct i as [|i].
    + left. by rewrite Nat.add_0_r in H.
    + right. exists i. split; [lia|]. by rewrite Nat.add_succ_comm.
  - intros [H|(i & Hi & H)].
    + exists 0%nat. split; [lia|]. by rewrite Nat.add_0_r.
    + exists (S i). split; [lia|]. by rewrite <- Nat.add_succ_comm.
Qed.

Lemma scan_over_0 (line : nat → option Z) (pos r : nat) :
  scan_over line pos r 0 ↔ (max_retries ≤ r)%nat.
Proof.
  unfold scan_over, header_in. simpl. rewrite Nat.add_0_r. split; [|auto].
  intros [(i & Hi & _)|H]; [lia|done].
Qed.

Lemma scan_over_S (line : nat → option Z) (pos r n : nat) :
  scan_over line pos r (S n) ↔
  line pos = Some 0xaa
  ∨ scan_over line (S pos) (r + if line pos is None then 1 else 0) n.
Proof.
  unfold scan_over. rewrite header_in_S. simpl timeouts_in.
  rewrite Nat.add_assoc. tauto.
Qed.

(** The scan, from any point of the loop: it has not finished within the
    fuel exactly when the header has not come and the retries are below the
    bound; when it finishes it has performed [k] reads, [k] being the first
    number of waits at which the scan is over. *)
Lemma wait_header_spec (fuel : nat) :
  ∀ (b : list Z) (r : nat) (s : Serial),
    b ≠ [0xaa] → (r ≤ max_retries)%nat →
    (wait_header fuel b r s = None ∧ ¬ scan_over (rx s) (rx_pos s) r fuel)
    ∨ ∃ b' k,
        wait_header fuel b r s
          = Some (Ok (b', (r + timeouts_in (rx s) (rx_pos s) k)%nat), after_reads k s)
        ∧ (k ≤ fuel)%nat
        ∧ scan_over (rx s) (rx_pos s) r k
        ∧ (∀ j, (j < k)%nat → ¬ scan_over (rx s) (rx_pos s) r j)
        ∧ (r + timeouts_in (rx s) (rx_pos s) k ≤ max_retries)%nat
        ∧ ((b' = [0xaa] ∧ (r + timeouts_in (rx s) (rx_pos s) k < max_retries)%nat)
           ∨ (b' ≠ [0xaa] ∧ (r + timeouts_in (rx s) (rx_pos s) k)%nat = max_retries)).
Proof.
  induction fuel as [|fuel IH]; intros b r s Hb Hr.
  - destruct (decide (r < max_retries)%nat) as [Hlt|Hge].
    + left. split; [by apply wait_header_out_of_fuel|].
      rewrite scan_over_0. lia.
    + right. exists b, 0%nat. simpl timeouts_in. rewrite Nat.add_0_r, after_reads_0.
      split; [apply wait_header_done; right; lia|].
      rewrite scan_over_0. repeat split; [lia|lia|intros; lia|lia|right; split; [done|lia]].
  - destruct (decide (r < max_retries)%nat) as [Hlt|Hge].
    2:{ right. exists b, 0%nat. simpl timeouts_in. rewrite Nat.add_0_r, after_reads_0.
        split; [apply wait_header_done; right; lia|].
        rewrite scan_over_0.
        repeat split; [lia|lia|intros; lia|lia|right; split; [done|lia]]. }
    rewrite (wait_header_step _ _ _ _ Hb Hlt).
    destruct (rx s (rx_pos s)) as [c|] eqn:Hc.
    + destruct (decide (c = 0xaa)) as [->|Hne].
      * right. exists [0xaa], 1%nat.
        simpl timeouts_in. rewrite Hc. simpl. rewrite Nat.add_0_r.
        split; [apply wait_header_done; by left|].
        split; [lia|]. split; [apply scan_over_S; by left|].
        split.
        { intros j Hj. assert (j = 0%nat) as -> by lia. rewrite scan_over_0. lia. }
        split; [lia|]. left. split; [done|lia].
      * assert ([c] ≠ [0xaa]) as Hb' by congruence.
        destruct (IH [c] r (after_reads 1 s) Hb' Hr) as [[Hn Hnot]|(b' & k & Hw & Hk & Hov & Hmin & Hle & Hres)].
        -- left. split; [done|]. rewrite scan_over_S, Hc.
           simpl in Hnot. rewrite Nat.add_1_r in Hnot. rewrite Nat.add_0_r.
           intros [H|H]; [congruence|done].
        -- right. exists b', (S k). simpl in *.
           rewrite Nat.add_1_r in *. rewrite Hc. simpl.
           rewrite after_reads_S in Hw.
           split; [done|]. split; [lia|].
           split; [apply scan_over_S; right; by rewrite Hc, Nat.add_0_r|].
           split; [|done].
           intros j Hj. destruct j as [|j]; [rewrite scan_over_0; lia|].
           rewrite scan_over_S, Hc, Nat.add_0_r.
           intros [H|H]; [congruence|]. apply (Hmin j); [lia|done].
    + assert (@nil Z ≠ [0xaa]) as Hb' by done.
      destruct (IH [] (S r) (after_reads 1 s) Hb' ltac:(lia)) as [[Hn Hnot]|(b' & k & Hw & Hk & Hov & Hmin & Hle & Hres)].
      * left. split; [done|]. rewrite scan_over_S, Hc.
        simpl in Hnot. rewrite Nat.add_1_r in *.
        intros [H|H]; [congruence|done].
      * right. exists b', (S k). simpl in *.
        rewrite Nat.add_1_r in *. rewrite Hc.
        rewrite after_reads_S in Hw.
        replace (r + (1 + timeouts_in (rx s) (S (rx_pos s)) k))%nat
          with (S (r + timeouts_in (rx s) (S (rx_pos s)) k)) by lia.
        split; [done|]. split; [lia|].
        split; [apply scan_over_S; right; by rewrite Hc, Nat.add_1_r|].
        split; [|done].
        intros j Hj. destruct j as [|j]; [rewrite scan_over_0; lia|].
        rewrite scan_over_S, Hc, Nat.add_1_r.
        intros [H|H]; [congruence|]. apply (Hmin j); [lia|done].
Qed.

Lemma timeouts_in_mono (line : nat → option Z) (k n : nat) :
  (k ≤ n)%nat → ∀ pos, (timeouts_in line pos k ≤ timeouts_in line pos n)%nat.
Proof.
  revert n. induction k as [|k IH]; intros n Hkn pos; simpl; [lia|].
  destruct n as [|n]; [lia|]. simpl.
  specialize (IH n ltac:(lia) (S pos)). lia.
Qed.

Lemma scan_over_mono (line : nat → option Z) (pos r k n : nat) :
  (k ≤ n)%nat → scan_over line pos r k → scan_over line pos r n.
Proof.
  intros Hkn [(i & Hi & H)|H].
  - left. exists i. split; [lia|done].
  - right. pose proof (timeouts_in_mono line k n Hkn pos). lia.
Qed.

Lemma read_response_ok (fuel : nat) (s s' : Serial) (d : list Z) :
  read_response fuel s = Some (Ok d, s') →
  ∃ d9, d = 0xaa :: d9 ∧ length d9 = 9%nat.
Proof.
  unfold read_response. intros H.
  apply bind_inv in H as [([byte r] & s1 & _ & H)|(e & _ & ?)]; [|done].
  destruct (decide (byte = [0xaa])) as [->|Hne].
  - rewrite bool_decide_eq_false_2 in H by (intros ?; done).
    apply bind_inv in H as [(d9 & s2 & _ & H)|(e & _ & ?)]; [|done].
    destruct (decide (length d9 = 9%nat)) as [Hl|Hl].
    + rewrite bool_decide_eq_false_2 in H by (intros ?; done).
      injection H as <- <-. by exists d9.
    + rewrite bool_decide_eq_true_2 in H by done. discriminate.
  - rewrite bool_decide_eq_true_2 in H by done. discriminate.
Qed.

Lemma read_response_no_header (fuel : nat) (s s' : Serial) (byte : list Z) (r : nat) :
  wait_header fuel [] 0 s = Some (Ok (byte, r), s') → byte ≠ [0xaa] →
  read_response fuel s = Some (Raise (TimeoutError NoResponse), s').
Proof.
  intros Hw Hb. unfold read_response. rewrite (bind_ok _ _ _ _ _ Hw).
  by rewrite bool_decide_eq_true_2.
Qed.

(** ** cmd_query_data *)

Lemma query_frame_built : construct_command_lit CMD_QUERY_DATA None = Ok query_frame.
Proof. vm_compute. reflexivity. Qed.

Lemma cmd_query_data_unfold (fuel : nat) (s : Serial) :
  cmd_query_data fuel s =
    match read_response fuel (sent query_frame s) with
    | None => None
    | Some (Ok d, s') => Some (Ok (decode_query d), s')
    | Some (Raise e, s') => Some (Raise e, s')
    end.
Proof.
  unfold cmd_query_data. rewrite query_frame_built.
  unfold mbind, M_bind, lift_result, ser_write, modify. simpl.
  by destruct (read_response fuel (sent query_frame s)) as [[[d|e] s']|].
Qed.

(** C2: the buffer AA C0 (123 mod 256) (123 div 256) (456 mod 256)
    (456 div 256) 0 0 0 AB decodes to pm2.5 = 12.3 and pm10 = 45.6; and for
    every packet the query reads whose type byte is C0 and whose last byte
    is AB, the values returned are (byte2 + byte3*256)/10 and
    (byte4 + byte5*256)/10. *)
Theorem cmd_query_data_decodes :
  decode_query [0xaa; 0xc0; 123 mod 256; 123 / 256; 456 mod 256; 456 / 256;
                0; 0; 0; 0xab]
    = (Some 12.3%float, Some 45.6%float)
  ∧ ∀ (fuel : nat) (s s' : Serial) (d : list Z),
      read_response fuel (sent query_frame s) = Some (Ok d, s') →
      nth 1 d 0 = 0xc0 → nth 9 d 0 = 0xab →
      cmd_query_data fuel s
        = Some (Ok (Some (PrimFloat.div (float_of_int (nth 2 d 0 + nth 3 d 0 * 256)) 10),
                    Some (PrimFloat.div (float_of_int (nth 4 d 0 + nth 5 d 0 * 256)) 10)),
                s').
Proof.
  split; [reflexivity|].
  intros fuel s s' d Hr H1 H9.
  rewrite cmd_query_data_unfold, Hr.
  destruct (read_response_ok _ _ _ _ Hr) as (d9 & -> & Hlen).
  unfold decode_query. simpl length. rewrite Hlen, H1, H9. reflexivity.
Qed.

(** The sensor answers the query with the readings 12.3 and 45.6. *)
Lemma cmd_query_data_decodes_witness :
  let s := mkSerial (line_of (Some <$> [0xaa; 0xc0; 123; 0; 200; 1; 0; 0; 0; 0xab]))
                    0 0 [] in
  cmd_query_data 1 s
    = Some (Ok (Some 12.3%float, Some 45.6%float),
            mkSerial (rx s) 10 2 [query_frame]).
Proof.
  intros s.
  exact (proj2 cmd_query_data_decodes 1%nat s
           (mkSerial (rx s) 10 2 [query_frame])
           [0xaa; 0xc0; 123; 0; 200; 1; 0; 0; 0; 0xab]
           eq_refl eq_refl eq_refl).
Defined.

(** C3: a 10-byte packet whose header is not AA, or whose type byte is not
    C0, or whose last byte is not AB, gives "no reading": the query returns
    (None, None) and raises nothing. *)
Theorem cmd_query_data_malformed :
  (∀ d : list Z,
     length d = 10%nat →
     nth 0 d 0 ≠ 0xaa ∨ nth 1 d 0 ≠ 0xc0 ∨ nth 9 d 0 ≠ 0xab →
     decode_query d = (None, None))
  ∧ ∀ (fuel : nat) (s s' : Serial) (d : list Z),
      read_response fuel (sent query_frame s) = Some (Ok d, s') →
      nth 0 d 0 ≠ 0xaa ∨ nth 1 d 0 ≠ 0xc0 ∨ nth 9 d 0 ≠ 0xab →
      cmd_query_data fuel s = Some (Ok (None, None), s').
Proof.
  assert (∀ d : list Z,
            nth 0 d 0 ≠ 0xaa ∨ nth 1 d 0 ≠ 0xc0 ∨ nth 9 d 0 ≠ 0xab →
            decode_query d = (None, None)) as Hdec.
  { intros d Hbad. unfold decode_query.
    destruct (Z.eqb_spec (nth 0 d 0) 0xaa), (Z.eqb_spec (nth 1 d 0) 0xc0),
      (Z.eqb_spec (nth 9 d 0) 0xab);
      rewrite ?andb_false_r; try reflexivity.
    exfalso. tauto. }
  split; [intros d _; apply Hdec|].
  intros fuel s s' d Hr Hbad.
  by rewrite cmd_query_data_unfold, Hr, (Hdec d Hbad).
Qed.

(** The sensor answers the query with the acknowledgement of an earlier
    sleep command (type byte C5). *)
Lemma cmd_query_data_malformed_witness :
  decode_query [0; 0xc0; 123; 0; 200; 1; 0; 0; 0; 0xab] = (None, None)
  ∧ let s := mkSerial (line_of (Some <$> [0xaa; 0xc5; 6; 1; 1; 0; 0; 0; 8; 0xab]))
                      0 0 [] in
    cmd_query_data 1 s = Some (Ok (None, None), mkSerial (rx s) 10 2 [query_frame]).
Proof.
  split.
  - apply (proj1 cmd_query_data_malformed); [reflexivity|].
    left. simpl. lia.
  - intros s.
    apply (proj2 cmd_query_data_malformed 1%nat s _
             [0xaa; 0xc5; 6; 1; 1; 0; 0; 0; 8; 0xab]); [reflexivity|].
    right; left. simpl. lia.
Defined.

(** C4, as the code has it: only the reads that bring no byte count towards
    the bound of 10.  The scan ends within a given number of waits exactly
    when, among them, the header has come or ten waits have timed out; it
    then has performed [k] reads, [k] being the first number of waits at
    which that holds, whatever the number of other bytes read in between;
    the retries it has counted are the timeouts among those [k] waits, at
    most 10; and it has the header exactly when fewer than ten timed out,
    failing with "no response" otherwise. *)
Theorem read_response_scan (s : Serial) (fuel : nat) :
  (is_Some (wait_header fuel [] 0 s) ↔ scan_over (rx s) (rx_pos s) 0 fuel)
  ∧ ∀ out s',
      wait_header fuel [] 0 s = Some (out, s') →
      ∃ byte k,
        out = Ok (byte, timeouts_in (rx s) (rx_pos s) k)
        ∧ s' = after_reads k s
        ∧ (k ≤ fuel)%nat
        ∧ scan_over (rx s) (rx_pos s) 0 k
        ∧ (∀ j, (j < k)%nat → ¬ scan_over (rx s) (rx_pos s) 0 j)
        ∧ (timeouts_in (rx s) (rx_pos s) k ≤ 10)%nat
        ∧ (byte = [0xaa] ↔ (timeouts_in (rx s) (rx_pos s) k < 10)%nat)
        ∧ (timeouts_in (rx s) (rx_pos s) k = 10%nat →
           read_response fuel s = Some (Raise (TimeoutError NoResponse), s')).
Proof.
  assert (@nil Z ≠ [0xaa]) as Hb by done.
  destruct (wait_header_spec fuel [] 0 s Hb ltac:(unfold max_retries; lia))
    as [[Hn Hnot]|(b' & k & Hw & Hk & Hov & Hmin & Hle & Hres)].
  - rewrite Hn. split; [|done].
    split; [by intros [? ?]|done].
  - simpl in Hw, Hle, Hres. unfold max_retries in *. split.
    + split; [intros _; by apply (scan_over_mono _ _ _ k)|by rewrite Hw].
    + intros out s' Heq. rewrite Hw in Heq. injection Heq as <- <-.
      exists b', k. repeat split; try done.
      * intros ->. destruct Hres as [[_ ?]|[? _]]; done.
      * intros Hlt. destruct Hres as [[? _]|[_ ?]]; [done|lia].
      * intros H10. apply (read_response_no_header _ _ _ b' _ Hw).
        destruct Hres as [[_ ?]|[? _]]; [lia|done].
Qed.

(** A line on which nothing ever arrives. *)
Lemma read_response_scan_witness :
  let s := mkSerial (λ _, None) 0 0 [] in
  wait_header 10 [] 0 s = Some (Ok ([], 10%nat), after_reads 10 s)
  ∧ read_response 10 s = Some (Raise (TimeoutError NoResponse), after_reads 10 s).
Proof.
  intros s.
  destruct (proj2 (read_response_scan s 10) (Ok ([], 10%nat)) (after_reads 10 s) eq_refl)
    as (byte & k & Hout & Hs & _ & _ & _ & _ & _ & Hno).
  split; [reflexivity|].
  apply Hno. injection Hout as _ Hk. symmetry. exact Hk.
Defined.

Lemma wait_header_noise_forever (fuel : nat) :
  ∀ (c : Z) (pos n : nat),
    c ≠ 0xaa → wait_header fuel [c] 0 (mkSerial (λ _, Some 0) pos n []) = None.
Proof.
  induction fuel as [|fuel IH]; intros c pos n Hc.
  - apply wait_header_out_of_fuel; [congruence|unfold max_retries; lia].
  - rewrite wait_header_step by (congruence || (unfold max_retries; lia)).
    simpl. apply IH. done.
Qed.

(** C4 as stated fails: on a line that delivers eleven stray bytes and then
    a packet, the scan performs twelve reads, more than ten, and the packet
    is returned; on a line that delivers stray bytes for ever the scan does
    not end, whatever the fuel. *)
Lemma read_response_reads_past_ten :
  let s := mkSerial (line_of (replicate 11 (Some 0)
                              ++ (Some <$> [0xaa; 0xc0; 123; 0; 200; 1; 0; 0; 0; 0xab])))
                    0 0 [] in
  wait_header 12 [] 0 s = Some (Ok ([0xaa], 0%nat), after_reads 12 s)
  ∧ n_reads (after_reads 12 s) = 12%nat
  ∧ (10 < 12)%nat
  ∧ read_response 12 s
    = Some (Ok [0xaa; 0xc0; 123; 0; 200; 1; 0; 0; 0; 0xab], mkSerial (rx s) 21 13 [])
  ∧ ∀ fuel, wait_header fuel [] 0 (mkSerial (λ _, Some 0) 0 0 []) = None.
Proof.
  intros s. split; [reflexivity|]. split; [reflexivity|]. split; [lia|].
  split; [reflexivity|].
  intros [|fuel].
  - apply wait_header_out_of_fuel; [done|unfold max_retries; lia].
  - rewrite wait_header_step by (done || (unfold max_retries; lia)).
    simpl. by apply wait_header_noise_forever.
Qed.

(** ** The file system *)

Lemma fs_exec_cons (op : fs_op) (ops : list fs_op) (fs0 : fsmap) :
  fs_exec (op :: ops) fs0 =
    match fs_step op fs0 with
    | Ok fs1 => fs_exec ops fs1
    | Raise e => Some (Raise e, fs0)
    end.
Proof.
  simpl. unfold mbind, M_bind, fs_do. by destruct (fs_step op fs0).
Qed.

Lemma fs_exec_total (ops : list fs_op) :
  ∀ fs0, ∃ r fs1, fs_exec ops fs0 = Some (r, fs1).
Proof.
  induction ops as [|op ops IH]; intros fs0.
  - by exists (Ok tt), fs0.
  - rewrite fs_exec_cons. destruct (fs_step op fs0) as [fs1|e]; [apply IH|eauto].
Qed.









(** ** Paths *)

Lemma forallb_reverse {A} (f : A → bool) (l : list A) :
  forallb f (reverse l) = forallb f l.
Proof.
  induction l as [|x l IH]; [done|].
  rewrite reverse_cons, forallb_app. simpl. rewrite IH.
  by destruct (f x), (forallb f l).
Qed.

Lemma drop_while_all {A} (f : A → bool) (l l' : list A) :
  forallb f l = true → drop_while f (l ++ l') = drop_while f l'.
Proof.
  induction l as [|x l IH]; [done|]. simpl.
  intros [Hx Hl]%andb_true_iff. rewrite Hx. by apply IH.
Qed.




Section ServiceFacts.

Variable cfg : Config.
Variable float_repr : float → string.
Variable tmp_base : string.








(** ** write_json and publish *)

Lemma write_json_run (ts : option Z) (pm25 pm10 : float) (w : World) :
  ∃ r fs1,
    fs_exec (write_json_ops cfg float_repr tmp_base ts pm25 pm10) (fs w) = Some (r, fs1)
    ∧ write_json cfg float_repr tmp_base ts pm25 pm10 w
      = Some (Ok tt,
              mkWorld (ser w) (clock w) (clock_pos w) (cache w) fs1 (queries w)
                      (match r with
                       | Ok _ => log w
                       | Raise e => log w ++ [LogWriteError e]
                       end)).
Proof.
  destruct (fs_exec_total (write_json_ops cfg float_repr tmp_base ts pm25 pm10) (fs w))
    as (r & fs1 & H).
  exists r, fs1. split; [done|].
  unfold write_json, try_except, on_fs. rewrite H.
  by destruct r as [[]|e].
Qed.

Lemma lookup_last_item {A} (earlier : list A) (x : A) :
  (earlier ++ [x]) !! (length (earlier ++ [x]) - 1)%nat = Some x.
Proof.
  rewrite length_app. simpl.
  replace (length earlier + 1 - 1)%nat with (length earlier) by lia.
  by apply list_lookup_middle.
Qed.

(** ** One round of the loop *)

Lemma frame_refl (w : World) : frame w w.
Proof. by repeat split. Qed.

Lemma frame_trans (w1 w2 w3 : World) : frame w1 w2 → frame w2 w3 → frame w1 w3.
Proof. unfold frame. intros (-> & -> & ->) (-> & -> & ->). done. Qed.

Lemma on_ser_frame {A} (m : M Serial A) (w w' : World) (r : result A) :
  on_ser m w = Some (r, w') → frame w w'.
Proof.
  unfold on_ser. destruct (m (ser w)) as [[r' s']|]; [|done].
  intros [= _ <-]. by repeat split.
Qed.

Lemma log_msg_frame (ev : log_event) (w w' : World) (r : result unit) :
  log_msg ev w = Some (r, w') → frame w w'.
Proof. intros [= _ <-]. by repeat split. Qed.

Lemma time_sleep_frame (d : Q) (w w' : World) (r : result unit) :
  time_sleep d w = Some (r, w') → frame w w'.
Proof. intros [= _ <-]. by repeat split. Qed.

Lemma time_time_frame (w w' : World) (r : result Q) :
  time_time w = Some (r, w') → frame w w'.
Proof. intros [= _ <-]. by repeat split. Qed.

Lemma query_noted_inv (fuel : nat) (w w' : World)
  (r : result (option float * option float)) :
  query_noted fuel w = Some (r, w') →
  cache w' = cache w ∧ fs w' = fs w ∧ queries w' = queries w ++ [r].
Proof.
  unfold query_noted. destruct (on_ser (cmd_query_data fuel) w) as [[r' w1]|] eqn:E; [|done].
  intros [= <- <-]. apply on_ser_frame in E as (Hc & Hf & Hq).
  simpl. by rewrite Hq.
Qed.

Lemma valid_samples_app (qs1 qs2 : list (result (option float * option float))) :
  valid_samples (qs1 ++ qs2) = valid_samples qs1 ++ valid_samples qs2.
Proof. apply omap_app. Qed.

Lemma valid_samples_no_reading (qs : list (result (option float * option float))) :
  Forall no_reading qs → valid_samples qs = [].
Proof.
  induction 1 as [|q qs Hq _ IH]; [done|].
  change (q :: qs) with ([q] ++ qs).
  rewrite (valid_samples_app [q] qs), IH, app_nil_r.
  by destruct q as [[[?|] [?|]]|?].
Qed.

Lemma sample_once_inv (fuel : nat) (samples : list (float * float))
  (w w' : World) (r : result (list (float * float))) :
  sample_once cfg fuel samples w = Some (r, w') →
  ∃ q, r = Ok (samples ++ valid_samples [q])
       ∧ cache w' = cache w ∧ fs w' = fs w ∧ queries w' = queries w ++ [q].
Proof.
  unfold sample_once, try_except, mbind, M_bind.
  destruct (query_noted fuel w) as [[q w1]|] eqn:E; [|done].
  apply query_noted_inv in E as (Hc & Hf & Hq).
  intros H. exists q.
  destruct q as [[[pm25|] [pm10|]]|e]; simpl in H;
    try (injection H as <- <-; by rewrite ?app_nil_r).
  destruct (log_raw cfg); simpl in H; injection H as <- <-; done.
Qed.

Lemma sampling_inv (fuel : nat) :
  ∀ (start_time : Q) (samples : list (float * float)) (w w' : World)
    (r : result (list (float * float))),
    sampling cfg fuel start_time samples w = Some (r, w') →
    cache w' = cache w ∧ fs w' = fs w
    ∧ ∃ qs, queries w' = queries w ++ qs ∧ r = Ok (samples ++ valid_samples qs).
Proof.
  induction fuel as [|fuel IH]; intros start_time samples w w' r H; [done|].
  simpl in H.
  apply bind_inv in H as [(now & w1 & Ht & H)|(e & Ht & _)]; [|done].
  pose proof (time_time_frame _ _ _ Ht) as (Hc1 & Hf1 & Hq1).
  destruct (Qlt_bool _ _).
  - apply bind_inv in H as [(samples' & w2 & Hs & H)|(e & Hs & _)].
    + apply sample_once_inv in Hs as (q & [= ->] & Hc2 & Hf2 & Hq2).
      apply bind_inv in H as [([] & w3 & Hsl & H)|(e & Hsl & _)]; [|done].
      injection Hsl as <-.
      apply IH in H as (Hc3 & Hf3 & qs & Hq3 & ->).
      split; [congruence|]. split; [congruence|].
      exists (q :: qs). split.
      * rewrite Hq3, Hq2, Hq1, <- app_assoc. done.
      * change (q :: qs) with ([q] ++ qs).
        by rewrite (valid_samples_app [q] qs), app_assoc.
    + by apply sample_once_inv in Hs as (q & ? & _).
  - injection H as <- <-. split; [done|]. split; [done|].
    exists []. by rewrite Hq1, !app_nil_r.
Qed.

Lemma publish_run (earlier : list (float * float)) (pm25 pm10 : float) (w : World) :
  let ts := int_of_Q (clock w (clock_pos w)) in
  ∃ r fs1,
    fs_exec (write_json_ops cfg float_repr tmp_base (Some ts) pm25 pm10) (fs w)
      = Some (r, fs1)
    ∧ publish cfg float_repr tmp_base (earlier ++ [(pm25, pm10)]) w
      = Some (Ok tt,
              mkWorld (ser w) (clock w) (S (clock_pos w))
                      (mkCache (Some pm25) (Some pm10) (Some ts)) fs1 (queries w)
                      (match r with
                       | Ok _ =>
                         log w ++ [LogPeriodComplete pm25 pm10
                                     (length (earlier ++ [(pm25, pm10)]))]
                       | Raise e =>
                         (log w ++ [LogPeriodComplete pm25 pm10
                                      (length (earlier ++ [(pm25, pm10)]))])
                         ++ [LogWriteError e]
                       end)).
Proof.
  intros ts. unfold publish.
  destruct (earlier ++ [(pm25, pm10)]) as [|x l] eqn:E.
  { by destruct earlier. }
  rewrite <- E, lookup_last_item.
  set (w1 := mkWorld (ser w) (clock w) (S (clock_pos w))
                     (mkCache (Some pm25) (Some pm10) (Some ts)) (fs w) (queries w)
                     (log w ++ [LogPeriodComplete pm25 pm10
                                  (length (earlier ++ [(pm25, pm10)]))])).
  destruct (write_json_run (Some ts) pm25 pm10 w1) as (r & fs1 & Hex & Hw).
  exists r, fs1. split; [exact Hex|exact Hw].
Qed.

Lemma publish_queries (samples : list (float * float)) (w w' : World) (r : result unit) :
  publish cfg float_repr tmp_base samples w = Some (r, w') →
  queries w' = queries w.
Proof.
  destruct samples as [|[pm25 pm10] earlier _] using rev_ind.
  - simpl. by intros [= _ <-].
  - destruct (publish_run earlier pm25 pm10 w) as (r' & fs1 & _ & ->).
    by intros [= _ <-].
Qed.

(** The end of a round: the sleep command and the pause. *)
Lemma cycle_tail_frame (fuel : nat) (w w' : World) (r : result unit) :
  (log_msg LogSleeping;;
   on_ser (cmd_set_sleep fuel 1);;
   time_sleep (inject_Z (sleep_period cfg))) w = Some (r, w') →
  frame w w'.
Proof.
  intros H.
  apply bind_inv in H as [(? & w1 & H1 & H)|(e & H1 & _)];
    apply log_msg_frame in H1; [|done].
  apply bind_inv in H as [(? & w2 & H2 & H)|(e & H2 & _)];
    apply on_ser_frame in H2; [|by apply (frame_trans _ w1)].
  apply time_sleep_frame in H.
  apply (frame_trans _ w1); [done|]. by apply (frame_trans _ w2).
Qed.

Lemma outcome_after_frame (w w1 w' : World) :
  frame w w1 →
  round_outcome cfg float_repr tmp_base w1 w' →
  round_outcome cfg float_repr tmp_base w w'.
Proof.
  intros Hfr [H|(qs & wa & wb & r & Hc & Hf & Hq & Hp & Hfr')].
  - left. by apply (frame_trans _ w1).
  - destruct Hfr as (Hc1 & Hf1 & Hq1).
    right. exists qs, wa, wb, r.
    split; [by rewrite Hc|]. split; [by rewrite Hf|].
    split; [by rewrite Hq, Hq1|]. by split.
Qed.

Lemma outcome_then_frame (w w1 w' : World) :
  round_outcome cfg float_repr tmp_base w w1 →
  frame w1 w' →
  round_outcome cfg float_repr tmp_base w w'.
Proof.
  intros [H|(qs & wa & wb & r & Hc & Hf & Hq & Hp & Hfr')] Hfr.
  - left. by apply (frame_trans _ w1).
  - right. exists qs, wa, wb, r.
    split; [done|]. split; [done|]. split; [done|]. split; [done|].
    by apply (frame_trans _ w1).
Qed.

(** Peel a step that leaves cache, files and history alone off the front
    of the round; if it raised, the round ended there. *)
Ltac quiet_step H :=
  let H1 := fresh "Hq" in
  apply bind_inv in H as [(? & ? & H1 & H)|(? & H1 & _)];
  first [apply log_msg_frame in H1 | apply on_ser_frame in H1
        | apply time_sleep_frame in H1 | apply time_time_frame in H1];
  [apply (outcome_after_frame _ _ _ H1); clear H1|by left].

Lemma cycle_body_outcome (fuel : nat) (w w' : World) (r : result unit) :
  cycle_body cfg float_repr tmp_base fuel w = Some (r, w') →
  round_outcome cfg float_repr tmp_base w w'.
Proof.
  unfold cycle_body. intros H.
  do 4 quiet_step H.
  apply bind_inv in H as [(samples & w1 & Hs & H)|(e & Hs & _)];
    apply sampling_inv in Hs as (Hc & Hf & qs & Hq & Hs); [|done].
  injection Hs as ->. simpl in H.
  right. exists qs, w1.
  apply bind_inv in H as [([] & w2 & Hp & H)|(e & Hp & _)].
  - exists w2, (Ok tt).
    split; [done|]. split; [done|]. split; [done|]. split; [done|].
    by apply cycle_tail_frame in H.
  - exists w', (Raise e).
    split; [done|]. split; [done|]. split; [done|]. split; [done|].
    apply frame_refl.
Qed.

Lemma cycle_outcome (fuel : nat) (w w' : World) (r : result unit) :
  cycle cfg float_repr tmp_base fuel w = Some (r, w') →
  round_outcome cfg float_repr tmp_base w w'.
Proof.
  unfold cycle, try_except. intros H.
  destruct (cycle_body cfg float_repr tmp_base fuel w) as [[[[]|e] w1]|] eqn:Hb;
    [| |done].
  - injection H as <- <-. by apply cycle_body_outcome in Hb.
  - apply cycle_body_outcome in Hb. apply (outcome_then_frame _ w1); [done|].
    apply bind_inv in H as [(? & w2 & H2 & H)|(e' & H2 & _)];
      apply log_msg_frame in H2; [|done].
    apply time_sleep_frame in H. by apply (frame_trans _ w2).
Qed.


(** C6: when no query of a round brings a reading, the round leaves
    [latest_pm25], [latest_pm10] and [last_update] as they were, and the
    file system too: nothing is written. *)
Theorem cycle_without_samples (fuel : nat) (w w' : World) (r : result unit) :
  cycle cfg float_repr tmp_base fuel w = Some (r, w') →
  Forall no_reading (drop (length (queries w)) (queries w')) →
  cache w' = cache w ∧ fs w' = fs w.
Proof.
  intros H Hall.
  apply cycle_outcome in H as [(Hc & Hf & _)|(qs & w1 & w2 & rp & Hc & Hf & Hq & Hp & Hfr)];
    [done|].
  destruct Hfr as (Hc2 & Hf2 & Hq2).
  rewrite Hq2, (publish_queries _ _ _ _ Hp), Hq, drop_app_length in Hall.
  rewrite (valid_samples_no_reading _ Hall) in Hp.
  apply log_msg_frame in Hp as (Hc1 & Hf1 & _).
  split; congruence.
Qed.

End ServiceFacts.



(** A round in which the first query is answered by a stray
    acknowledgement and the others are not answered at all. *)
Lemma cycle_without_samples_witness :
  let w := example_world (example_ack ++ [None] ++ example_ack) in
  ∃ r w',
    cycle example_cfg example_repr "tmpk3v9x_q2" 100 w = Some (r, w')
    ∧ cache w' = cache w ∧ fs w' = fs w.
Proof.
  intros w.
  destruct (cycle example_cfg example_repr "tmpk3v9x_q2" 100 w) as [[r w']|] eqn:E.
  - exists r, w'. split; [reflexivity|].
    apply (cycle_without_samples _ _ _ _ _ _ _ E).
    clear -E. vm_compute in E. injection E as _ <-.
    vm_compute. repeat constructor.
  - exfalso. vm_compute in E. discriminate.
Defined.

(** ** The cache under the lock *)







(** * Further properties *)

(** ** construct_command *)

Lemma sum_from (l : list Z) (a : Z) : fold_left Z.add l a = a + sum l.
Proof.
  unfold sum. revert a. induction l as [|x l IH]; intros a; simpl; [lia|].
  rewrite (IH (a + x)), (IH (0 + x)). lia.
Qed.

Lemma sum_cons (x : Z) (l : list Z) : sum (x :: l) = x + sum l.
Proof. unfold sum at 1. simpl. apply sum_from. Qed.

Lemma sum_app (l1 l2 : list Z) : sum (l1 ++ l2) = sum l1 + sum l2.
Proof.
  induction l1 as [|x l1 IH]; [done|].
  rewrite <- app_comm_cons, !sum_cons, IH. lia.
Qed.

Lemma bytes_inv (l b : list Z) : bytes l = Ok b → b = l ∧ Forall byte_value l.
Proof.
  unfold bytes. destruct (forallb is_byte l) eqn:E; [|done].
  intros [= <-]. split; [done|].
  apply Forall_forall. intros x Hx. apply is_byte_spec.
  rewrite forallb_forall in E. apply E. by apply list_elem_of_In.
Qed.


(** A call that returns a frame was given at most 12 byte values and a
    one-byte command, and the frame is laid out from them. *)
Lemma construct_command_ok_inv
  (cmd : Z) (arg : option loc) (data frame : list Z) (h : heap) :
  arg_value h arg = Some data →
  (construct_command cmd arg h).1 = Ok frame →
  (length data ≤ 12)%nat ∧ byte_value cmd ∧ Forall byte_value data
  ∧ frame = [0xaa; 0xb4; cmd] ++ zero_padded data
            ++ [0xff; 0xff; checksum_of cmd (zero_padded data); 0xab].
Proof.
  intros Harg. rewrite (construct_command_result _ _ _ _ Harg).
  destruct (Nat.ltb_spec 12 (length data)) as [Hlt|Hge]; [done|].
  destruct (bytes [cmd]) as [b1|] eqn:E1; [|done].
  destruct (bytes (zero_padded data)) as [b2|] eqn:E2; [|done].
  destruct (bytes [checksum_of cmd (zero_padded data)]) as [b3|] eqn:E3; [|done].
  apply bytes_inv in E1 as [-> H1], E2 as [-> H2], E3 as [-> _].
  intros [= <-]. split; [done|]. split; [by inversion H1|].
  split; [|done]. unfold zero_padded in H2. by apply Forall_app in H2 as [? _].
Qed.

(** X1: the checksum byte of a frame is the sum, modulo 256, of the
    fifteen bytes between the two-byte head and the checksum: the command,
    the twelve data bytes and the FF FF pair (the [- 2] of the code is that
    pair). *)
Theorem construct_command_checksum_covers_body
  (cmd : Z) (arg : option loc) (data frame : list Z) (h : heap) :
  arg_value h arg = Some data →
  (construct_command cmd arg h).1 = Ok frame →
  frame !! 17%nat = Some (sum (take 15 (drop 2 frame)) mod 256)
  ∧ take 2 frame = [0xaa; 0xb4]
  ∧ drop 18 frame = [0xab].
Proof.
  intros Harg Hok.
  destruct (construct_command_ok_inv _ _ _ _ _ Harg Hok) as (Hlen & _ & _ & ->).
  pose proof (zero_padded_length data Hlen) as Hp.
  destruct (zero_padded data) as [|d0 [|d1 [|d2 [|d3 [|d4 [|d5 [|d6 [|d7 [|d8
    [|d9 [|d10 [|d11 [|]]]]]]]]]]]]] eqn:E; try discriminate Hp.
  split; [|done]. simpl. f_equal. unfold checksum_of.
  rewrite !sum_cons. change (sum []) with 0.
  rewrite <- (Z_mod_plus_full (_ - 2) 2 256). f_equal. lia.
Qed.

Lemma construct_command_checksum_covers_body_witness :
  let frame := [0xaa; 0xb4; 6; 1; 1; 0; 0; 0; 0; 0; 0; 0; 0; 0; 0; 0xff; 0xff; 6; 0xab] in
  frame !! 17%nat = Some (sum (take 15 (drop 2 frame)) mod 256)
  ∧ take 2 frame = [0xaa; 0xb4]
  ∧ drop 18 frame = [0xab].
Proof.
  intros frame.
  apply (construct_command_checksum_covers_body 6 (Some 1%positive) [1; 1] frame
           {[ 1%positive := [1; 1] ]}); reflexivity.
Defined.

(** X2: what a call raises, and what it has done to the list by then.  A
    list of more than 12 items fails the assertion and is left alone.
    Otherwise the list is padded whatever follows, and the call raises
    ValueError exactly when the command or an item is not in range(256). *)
Theorem construct_command_errors (cmd : Z) (l : loc) (data : list Z) (h : heap) :
  h !! l = Some data →
  ((12 < length data)%nat →
   construct_command cmd (Some l) h = (Raise AssertionError, h))
  ∧ ((length data ≤ 12)%nat →
     ((construct_command cmd (Some l) h).1 = Raise ValueError
      ↔ ¬ (byte_value cmd ∧ Forall byte_value data))
     ∧ (construct_command cmd (Some l) h).2 = <[l := zero_padded data]> h).
Proof.
  intros Hl. split.
  - intros Hlen. unfold construct_command. rewrite Hl.
    by replace (12 <? length data)%nat with true by (symmetry; by apply Nat.ltb_lt).
  - intros Hlen. split; [|by apply construct_command_heap].
    rewrite (construct_command_result cmd (Some l) data h Hl).
    replace (12 <? length data)%nat with false by (symmetry; apply Nat.ltb_ge; lia).
    rewrite (bytes_ok [checksum_of _ _]) by (apply Forall_singleton, checksum_byte).
    split.
    + intros H [Hc Hd].
      rewrite (bytes_ok [cmd]) in H by (by apply Forall_singleton).
      rewrite (bytes_ok (zero_padded data)) in H by (by apply zero_padded_bytes).
      discriminate H.
    + intros Hn. destruct (bytes [cmd]) as [b1|e1] eqn:E1;
        [|by rewrite (bytes_raise _ _ E1)].
      destruct (bytes (zero_padded data)) as [b2|e2] eqn:E2;
        [|by rewrite (bytes_raise _ _ E2)].
      exfalso. apply Hn.
      apply bytes_inv in E1 as [_ H1], E2 as [_ H2].
      split; [by inversion H1|].
      unfold zero_padded in H2. by apply Forall_app in H2 as [? _].
Qed.

Lemma construct_command_errors_witness :
  construct_command 2 (Some 1%positive) {[ 1%positive := replicate 13 0 ]}
    = (Raise AssertionError, {[ 1%positive := replicate 13 0 ]})
  ∧ (construct_command 2 (Some 1%positive) {[ 1%positive := [1; 256] ]}).1
    = Raise ValueError
  ∧ (construct_command 2 (Some 1%positive) {[ 1%positive := [1; 256] ]}).2
    = <[1%positive := zero_padded [1; 256]]> {[ 1%positive := [1; 256] ]}.
Proof.
  split.
  - assert (({[ 1%positive := replicate 13 0 ]} : heap) !! 1%positive
            = Some (replicate 13 0)) as Hl by reflexivity.
    apply (proj1 (construct_command_errors 2 1%positive (replicate 13 0) _ Hl)).
    simpl. lia.
  - assert (({[ 1%positive := [1; 256] ]} : heap) !! 1%positive = Some [1; 256])
      as Hl by reflexivity.
    assert (length [1; 256] ≤ 12)%nat as Hlen by (simpl; lia).
    destruct (proj2 (construct_command_errors 2 1%positive [1; 256] _ Hl) Hlen)
      as [Hiff Hheap].
    split; [|exact Hheap]. apply Hiff. intros [_ Hd].
    inversion Hd as [|? ? _ Hd']. inversion Hd' as [|? ? H256 _].
    unfold byte_value in H256. lia.
Defined.

(** X3: trailing zeros make no difference.  A list and the same list
    already padded to twelve items give the same outcome, and the padded
    list is left exactly as it is; so a second call on the same list object
    repeats the first. *)
Theorem construct_command_padding_irrelevant
  (cmd : Z) (l1 l2 : loc) (data : list Z) (h1 h2 : heap) :
  h1 !! l1 = Some data →
  h2 !! l2 = Some (zero_padded data) →
  (length data ≤ 12)%nat →
  (construct_command cmd (Some l2) h2).1 = (construct_command cmd (Some l1) h1).1
  ∧ (construct_command cmd (Some l2) h2).2 = h2.
Proof.
  intros H1 H2 Hlen.
  pose proof (zero_padded_length data Hlen) as Hp.
  split.
  - rewrite (construct_command_result cmd (Some l2) _ h2 H2).
    rewrite (construct_command_result cmd (Some l1) _ h1 H1).
    rewrite Hp. simpl (12 <? 12)%nat.
    replace (12 <? length data)%nat with false by (symmetry; apply Nat.ltb_ge; lia).
    by rewrite (zero_padded_full (zero_padded data)).
  - rewrite (construct_command_heap cmd l2 _ h2 H2) by lia.
    rewrite (zero_padded_full (zero_padded data)) by done.
    by apply insert_id.
Qed.

Lemma construct_command_padding_irrelevant_witness :
  (construct_command 6 (Some 2%positive)
     {[ 2%positive := [1; 1; 0; 0; 0; 0; 0; 0; 0; 0; 0; 0] ]}).1
  = (construct_command 6 (Some 1%positive) {[ 1%positive := [1; 1] ]}).1
  ∧ (construct_command 6 (Some 2%positive)
       {[ 2%positive := [1; 1; 0; 0; 0; 0; 0; 0; 0; 0; 0; 0] ]}).2
    = {[ 2%positive := [1; 1; 0; 0; 0; 0; 0; 0; 0; 0; 0; 0] ]}.
Proof.
  apply (construct_command_padding_irrelevant 6 1%positive 2%positive [1; 1]
           {[ 1%positive := [1; 1] ]}
           {[ 2%positive := [1; 1; 0; 0; 0; 0; 0; 0; 0; 0; 0; 0] ]}).
  - reflexivity.
  - reflexivity.
  - simpl. lia.
Defined.

(** X4: a call changes no list but the one it is given; called without
    data it changes no list that existed. *)
Theorem construct_command_touches_only_argument
  (cmd : Z) (arg : option loc) (h : heap) (l' : loc) (v : list Z) :
  h !! l' = Some v →
  arg ≠ Some l' →
  (construct_command cmd arg h).2 !! l' = Some v.
Proof.
  intros Hl' Harg. unfold construct_command.
  destruct arg as [l|].
  - assert (l ≠ l') as Hne by congruence.
    destruct (h !! l) as [w|]; [|done].
    destruct (12 <? length w)%nat; [done|]. simpl.
    by rewrite lookup_insert_ne.
  - set (l := fresh (dom h)).
    assert (l ≠ l') as Hne.
    { intros Heq. apply (is_fresh (dom h)). fold l. rewrite Heq.
      apply elem_of_dom. by eexists. }
    rewrite lookup_insert_eq. simpl.
    by rewrite !lookup_insert_ne.
Qed.

Lemma construct_command_touches_only_argument_witness :
  (construct_command 4 None {[ 1%positive := [1; 1] ]}).2 !! 1%positive = Some [1; 1]
  ∧ (construct_command 4 (Some 2%positive)
       (<[2%positive := [7]]> {[ 1%positive := [1; 1] ]})).2 !! 1%positive
    = Some [1; 1].
Proof.
  split.
  - apply construct_command_touches_only_argument; [reflexivity|discriminate].
  - apply construct_command_touches_only_argument; [reflexivity|discriminate].
Defined.

(** ** read_response *)

(** What a read of up to [n] bytes delivers: the bytes of the line from
    [pos] on, all [n] of them or those before the first timeout. *)
Lemma read_bytes_spec (n : nat) (line : nat → option Z) :
  ∀ pos bs pos',
    read_bytes n line pos = (bs, pos') →
    (∀ i, (i < length bs)%nat → line (pos + i)%nat = bs !! i)
    ∧ ((length bs = n ∧ pos' = (pos + n)%nat)
       ∨ ((length bs < n)%nat ∧ line (pos + length bs)%nat = None
          ∧ pos' = (pos + length bs + 1)%nat)).
Proof.
  induction n as [|n IH]; intros pos bs pos' H; simpl in H.
  - injection H as <- <-. split; [simpl; intros; lia|left; simpl; lia].
  - destruct (line pos) as [b|] eqn:Eb.
    + destruct (read_bytes n line (S pos)) as [bs1 p1] eqn:E1.
      injection H as <- <-. apply IH in E1 as [Hpt Hend]. split.
      * intros [|i] Hi; simpl in *; [by rewrite Nat.add_0_r|].
        rewrite <- Hpt by lia. f_equal. lia.
      * simpl. destruct Hend as [[? ->]|(? & Hn & ->)]; [left; lia|right].
        split; [lia|]. split; [|lia]. rewrite <- Hn. f_equal. lia.
    + injection H as <- <-. split; [simpl; intros; lia|right].
      simpl. rewrite Nat.add_0_r. split; [lia|]. split; [done|lia].
Qed.

Lemma read_bytes_all (n : nat) (line : nat → option Z) :
  ∀ pos bs,
    length bs = n →
    (∀ i, (i < n)%nat → line (pos + i)%nat = bs !! i) →
    read_bytes n line pos = (bs, (pos + n)%nat).
Proof.
  induction n as [|n IH]; intros pos bs Hlen Hpt.
  - destruct bs; [|done]. simpl. by rewrite Nat.add_0_r.
  - destruct bs as [|b bs]; [done|]. simpl.
    rewrite <- (Nat.add_0_r pos) at 1. rewrite (Hpt 0%nat) by lia. simpl.
    rewrite (IH (S pos) bs).
    + f_equal. lia.
    + simpl in Hlen. lia.
    + intros i Hi. specialize (Hpt (S i) ltac:(lia)). simpl in Hpt.
      rewrite <- Hpt. f_equal. lia.
Qed.

Lemma read_bytes_short (n : nat) (line : nat → option Z) :
  ∀ pos g,
    (g < n)%nat →
    (∀ i, (i < g)%nat → is_Some (line (pos + i)%nat)) →
    line (pos + g)%nat = None →
    ∃ bs, read_bytes n line pos = (bs, (pos + g + 1)%nat) ∧ length bs = g.
Proof.
  induction n as [|n IH]; intros pos g Hg Hpt Hnone; [lia|]. simpl.
  destruct g as [|g].
  - rewrite Nat.add_0_r in Hnone. rewrite Hnone.
    exists []. split; [f_equal; lia|done].
  - destruct (Hpt 0%nat ltac:(lia)) as [b Hb]. rewrite Nat.add_0_r in Hb. rewrite Hb.
    destruct (IH (S pos) g) as (bs & Hr & Hl).
    + lia.
    + intros i Hi. replace (S pos + i)%nat with (pos + S i)%nat by lia.
      apply Hpt. lia.
    + by replace (S pos + g)%nat with (pos + S g)%nat by lia.
    + rewrite Hr. exists (b :: bs). split; [f_equal; lia|simpl; lia].
Qed.

Lemma timeouts_in_snoc (line : nat → option Z) (k : nat) :
  ∀ pos,
    timeouts_in line pos (S k)
    = (timeouts_in line pos k + if line (pos + k)%nat is None then 1 else 0)%nat.
Proof.
  induction k as [|k IH]; intros pos.
  - simpl. rewrite !Nat.add_0_r. done.
  - change (timeouts_in line pos (S (S k)))
      with ((if line pos is None then 1 else 0)
            + timeouts_in line (S pos) (S k))%nat.
    rewrite IH. simpl. replace (S (pos + k))%nat with (pos + S k)%nat by lia.
    destruct (line pos), (line (pos + S k)%nat); lia.
Qed.

(** A scan that ends with the header has read it in its last read. *)
Lemma scan_ends_on_header (line : nat → option Z) (pos k : nat) :
  scan_over line pos 0 k →
  (∀ j, (j < k)%nat → ¬ scan_over line pos 0 j) →
  (timeouts_in line pos k < max_retries)%nat →
  ∃ k', k = S k' ∧ line (pos + k')%nat = Some 0xaa.
Proof.
  intros [(i & Hi & Hh)|Ht] Hmin Hlt; [|simpl in Ht; lia].
  destruct k as [|k']; [lia|]. exists k'. split; [done|].
  destruct (decide (i = k')) as [->|Hne]; [done|].
  exfalso. apply (Hmin (S i)); [lia|]. left. exists i. split; [lia|done].
Qed.

(** The scan finds a header that comes after [k] waits of which none
    brought the header and fewer than ten timed out. *)
Lemma wait_header_finds (fuel k : nat) (s : Serial) :
  (k < fuel)%nat →
  ¬ scan_over (rx s) (rx_pos s) 0 k →
  rx s (rx_pos s + k)%nat = Some 0xaa →
  wait_header fuel [] 0 s
  = Some (Ok ([0xaa], timeouts_in (rx s) (rx_pos s) k), after_reads (S k) s).
Proof.
  intros Hk Hnot Hh.
  assert (scan_over (rx s) (rx_pos s) 0 (S k)) as Hov.
  { left. exists k. split; [lia|done]. }
  assert (@nil Z ≠ [0xaa]) as Hb by done.
  destruct (wait_header_spec fuel [] 0 s Hb ltac:(unfold max_retries; lia))
    as [[_ Hn]|(b' & k' & Hw & Hk' & Hov' & Hmin & Hle & Hres)].
  { exfalso. apply Hn. by apply (scan_over_mono _ _ _ (S k)); [lia|]. }
  assert (k' = S k) as ->.
  { destruct (Nat.lt_trichotomy k' (S k)) as [Hlt|[?|Hgt]]; [|done|].
    - exfalso. apply Hnot. apply (scan_over_mono _ _ _ k'); [lia|done].
    - exfalso. by apply (Hmin (S k)). }
  rewrite timeouts_in_snoc, Hh in Hw, Hres. rewrite Hw.
  destruct Hres as [[-> _]|[_ Hten]]; [simpl; by rewrite Nat.add_0_r|].
  exfalso. apply Hnot. right. simpl in *. lia.
Qed.

(** Everything [read_response] can do, from the line it reads: the scan
    performs [k] reads; either ten of them timed out, and it raises; or the
    last of them brought the header, and one more read decides between a
    packet and an incomplete response. *)
Lemma read_response_outcome (fuel : nat) (s s' : Serial) (r : result (list Z)) :
  read_response fuel s = Some (r, s') →
  ∃ k,
    (k ≤ fuel)%nat
    ∧ (∀ j, (j < k)%nat → ¬ scan_over (rx s) (rx_pos s) 0 j)
    ∧ ((timeouts_in (rx s) (rx_pos s) k = max_retries
        ∧ r = Raise (TimeoutError NoResponse) ∧ s' = after_reads k s)
       ∨ ∃ k' bs pos',
           k = S k'
           ∧ rx s (rx_pos s + k')%nat = Some 0xaa
           ∧ read_bytes 9 (rx s) (rx_pos s + k)%nat = (bs, pos')
           ∧ s' = mkSerial (rx s) pos' (n_reads s + k + 1) (tx s)
           ∧ r = if decide (length bs = 9%nat) then Ok (0xaa :: bs)
                 else Raise (TimeoutError (IncompleteResponse (length bs)))).
Proof.
  intros H. unfold read_response in H.
  assert (@nil Z ≠ [0xaa]) as Hb by done.
  destruct (wait_header_spec fuel [] 0 s Hb ltac:(unfold max_retries; lia))
    as [[Hn _]|(b' & k & Hw & Hk & Hov & Hmin & Hle & Hres)].
  { by rewrite (bind_none _ _ _ Hn) in H. }
  rewrite (bind_ok _ _ _ _ _ Hw) in H. simpl in Hle, Hres, H.
  exists k. split; [done|]. split; [done|].
  destruct Hres as [[-> Hlt]|[Hne Hten]].
  - right.
    destruct (scan_ends_on_header _ _ _ Hov Hmin Hlt) as (k' & -> & Hh).
    rewrite bool_decide_eq_false_2 in H by (intros ?; done).
    unfold mbind, M_bind, ser_read, after_reads in H.
    cbn [rx rx_pos n_reads tx] in H.
    destruct (read_bytes 9 (rx s) (rx_pos s + S k')) as [bs pos'] eqn:Er.
    exists k', bs, pos'. split; [done|]. split; [done|]. split; [done|].
    destruct (decide (length bs = 9%nat)) as [Hl|Hl].
    + rewrite bool_decide_eq_false_2 in H by (intros ?; done).
      injection H as <- <-. split; [f_equal; lia|done].
    + rewrite bool_decide_eq_true_2 in H by done.
      injection H as <- <-. split; [f_equal; lia|done].
  - left. rewrite bool_decide_eq_true_2 in H by done.
    injection H as <- <-. done.
Qed.

(** X5: a packet [read_response] returns is ten consecutive bytes of the
    line, the first of them 0xAA, and the port stands right after them;
    nothing has been written. *)
Theorem read_response_packet (fuel : nat) (s s' : Serial) (d : list Z) :
  read_response fuel s = Some (Ok d, s') →
  length d = 10%nat
  ∧ d !! 0%nat = Some 0xaa
  ∧ (rx_pos s + 10 ≤ rx_pos s')%nat
  ∧ (∀ i, (i < 10)%nat → rx s (rx_pos s' - 10 + i)%nat = d !! i)
  ∧ rx s' = rx s ∧ tx s' = tx s.
Proof.
  intros H.
  apply read_response_outcome in H
    as (k & _ & _ & [(_ & ? & _)|(k' & bs & pos' & -> & Hh & Hr & -> & Hres)]);
    [done|].
  destruct (decide (length bs = 9%nat)) as [Hl|Hl]; [|done].
  injection Hres as ->.
  apply read_bytes_spec in Hr as [Hpt [[_ ->]|[? _]]]; [|lia].
  simpl. split; [lia|]. split; [done|]. split; [lia|]. split; [|done].
  intros [|i] Hi.
  - simpl. rewrite <- Hh. f_equal. lia.
  - simpl. rewrite <- Hpt by lia. f_equal. lia.
Qed.

Lemma read_response_packet_witness :
  let s := mkSerial (line_of (Some <$> [7; 0xaa; 0xc0; 123; 0; 200; 1; 0; 0; 0; 0xab]))
                    0 0 [] in
  let d := [0xaa; 0xc0; 123; 0; 200; 1; 0; 0; 0; 0xab] in
  let s' := mkSerial (rx s) 11 3 [] in
  length d = 10%nat
  ∧ d !! 0%nat = Some 0xaa
  ∧ (rx_pos s + 10 ≤ rx_pos s')%nat
  ∧ (∀ i, (i < 10)%nat → rx s (rx_pos s' - 10 + i)%nat = d !! i)
  ∧ rx s' = rx s ∧ tx s' = tx s.
Proof.
  intros s d s'. apply (read_response_packet 2 s s' d). reflexivity.
Defined.

(** X6: a packet cut short.  When the header comes (after any bytes that
    are not the header and fewer than ten timeouts) and only [g] < 9 bytes
    follow before a wait times out, [read_response] raises the
    incomplete-response error with the count [g]; the header, the [g]
    bytes and the timeout are consumed. *)
Theorem read_response_incomplete (fuel k g : nat) (s : Serial) :
  (k < fuel)%nat →
  ¬ scan_over (rx s) (rx_pos s) 0 k →
  rx s (rx_pos s + k)%nat = Some 0xaa →
  (g < 9)%nat →
  (∀ i, (i < g)%nat → is_Some (rx s (rx_pos s + k + 1 + i)%nat)) →
  rx s (rx_pos s + k + 1 + g)%nat = None →
  read_response fuel s
  = Some (Raise (TimeoutError (IncompleteResponse g)),
          mkSerial (rx s) (rx_pos s + k + g + 2) (n_reads s + k + 2) (tx s)).
Proof.
  intros Hk Hnot Hh Hg Hpt Hnone.
  unfold read_response.
  rewrite (bind_ok _ _ _ _ _ (wait_header_finds fuel k s Hk Hnot Hh)).
  rewrite bool_decide_eq_false_2 by (intros ?; done).
  unfold mbind, M_bind, ser_read, after_reads. cbn [rx rx_pos n_reads tx].
  destruct (read_bytes_short 9 (rx s) (rx_pos s + S k) g Hg) as (bs & Hr & Hl).
  { intros i Hi. replace (rx_pos s + S k + i)%nat with (rx_pos s + k + 1 + i)%nat by lia.
    by apply Hpt. }
  { by replace (rx_pos s + S k + g)%nat with (rx_pos s + k + 1 + g)%nat by lia. }
  rewrite Hr. rewrite bool_decide_eq_true_2 by lia.
  unfold raise. rewrite Hl.
  replace (rx_pos s + S k + g + 1)%nat with (rx_pos s + k + g + 2)%nat by lia.
  by replace (S (n_reads s + S k)) with (n_reads s + k + 2)%nat by lia.
Qed.

Lemma read_response_incomplete_witness :
  let s := mkSerial (line_of [Some 0xaa; Some 0xc0; Some 5; None]) 0 0 [] in
  read_response 1 s
  = Some (Raise (TimeoutError (IncompleteResponse 2)), mkSerial (rx s) 4 2 []).
Proof.
  intros s. apply (read_response_incomplete 1 0 2 s).
  - lia.
  - rewrite scan_over_0. unfold max_retries. lia.
  - reflexivity.
  - lia.
  - intros [|[|i]] Hi; [by eexists|by eexists|lia].
  - reflexivity.
Defined.

(** X7: resynchronisation.  Whatever comes before it on the line, bytes
    other than 0xAA in any number and fewer than ten timeouts, the first
    0xAA is taken for the header and, when nine bytes follow it, it is
    returned with them. *)
Theorem read_response_resynchronises (fuel k : nat) (s : Serial) (bs : list Z) :
  (k < fuel)%nat →
  ¬ scan_over (rx s) (rx_pos s) 0 k →
  rx s (rx_pos s + k)%nat = Some 0xaa →
  length bs = 9%nat →
  (∀ i, (i < 9)%nat → rx s (rx_pos s + k + 1 + i)%nat = bs !! i) →
  read_response fuel s
  = Some (Ok (0xaa :: bs),
          mkSerial (rx s) (rx_pos s + k + 10) (n_reads s + k + 2) (tx s)).
Proof.
  intros Hk Hnot Hh Hl Hpt.
  unfold read_response.
  rewrite (bind_ok _ _ _ _ _ (wait_header_finds fuel k s Hk Hnot Hh)).
  rewrite bool_decide_eq_false_2 by (intros ?; done).
  unfold mbind, M_bind, ser_read, after_reads. cbn [rx rx_pos n_reads tx].
  rewrite (read_bytes_all 9 (rx s) (rx_pos s + S k) bs Hl).
  - rewrite bool_decide_eq_false_2 by (intros ?; done).
    unfold mret, M_ret.
    replace (rx_pos s + S k + 9)%nat with (rx_pos s + k + 10)%nat by lia.
    by replace (S (n_reads s + S k)) with (n_reads s + k + 2)%nat by lia.
  - intros i Hi. rewrite <- Hpt by done. f_equal. lia.
Qed.

(** Three stray bytes, a timeout, two more stray bytes, then a packet. *)
Lemma read_response_resynchronises_witness :
  let s := mkSerial (line_of ([Some 1; Some 2; Some 0xab; None; Some 3; Some 4]
                              ++ (Some <$> [0xaa; 0xc0; 123; 0; 200; 1; 0; 0; 0; 0xab])))
                    0 0 [] in
  read_response 7 s
  = Some (Ok [0xaa; 0xc0; 123; 0; 200; 1; 0; 0; 0; 0xab], mkSerial (rx s) 16 8 []).
Proof.
  intros s. apply (read_response_resynchronises 7 6 s [0xc0; 123; 0; 200; 1; 0; 0; 0; 0xab]).
  - lia.
  - intros [(i & Hi & Hh)|Ht].
    + do 6 (destruct i as [|i]; [discriminate Hh|]). lia.
    + vm_compute in Ht. lia.
  - reflexivity.
  - reflexivity.
  - intros i Hi. do 9 (destruct i as [|i]; [reflexivity|]). lia.
Defined.

(** ** The sensor commands *)

Lemma read_response_tx (fuel : nat) (s s' : Serial) (r : result (list Z)) :
  read_response fuel s = Some (r, s') → tx s' = tx s ∧ rx s' = rx s.
Proof.
  intros H.
  apply read_response_outcome in H
    as (k & _ & _ & [(_ & _ & ->)|(k' & bs & pos' & _ & _ & _ & -> & _)]); done.
Qed.





(** ** Decoding *)

Lemma all_bytes_spec (f : Z → bool) (z : Z) :
  all_bytes f = true → byte_value z → f z = true.
Proof.
  unfold all_bytes, byte_value. intros H Hz.
  rewrite forallb_forall in H.
  rewrite <- (Z2Nat.id z) by lia. apply H.
  apply in_seq. lia.
Qed.

Lemma all_counts_spec (f : Z → bool) (lo hi : Z) :
  all_counts f = true → byte_value lo → byte_value hi → f (lo + hi * 256) = true.
Proof.
  unfold all_counts. intros H Hlo Hhi.
  apply (all_bytes_spec _ hi) in H; [|done].
  by apply (all_bytes_spec _ lo) in H.
Qed.

Lemma every_count_decodes_exactly :
  all_counts (λ n, reading_of_count n (PrimFloat.div (float_of_int n) 10)) = true.
Proof. vm_compute. reflexivity. Qed.

(** X10: the readings a well-formed packet decodes to are between 0 and
    6553.5, and nothing of the 16-bit counts is lost in the division: ten
    times each reading is the count the sensor sent, low byte first. *)
Theorem decode_query_exact (d : list Z) (pm25 pm10 : float) :
  Forall byte_value d →
  decode_query d = (Some pm25, Some pm10) →
  reading_of_count (nth 2 d 0 + nth 3 d 0 * 256) pm25 = true
  ∧ reading_of_count (nth 4 d 0 + nth 5 d 0 * 256) pm10 = true.
Proof.
  intros Hd. unfold decode_query.
  destruct (_ && _) eqn:E; [|done].
  apply andb_true_iff in E as [E _]. apply andb_true_iff in E as [E _].
  apply andb_true_iff in E as [E _]. apply Nat.eqb_eq in E.
  intros [= <- <-].
  assert (∀ i, (i < 10)%nat → byte_value (nth i d 0)) as Hb.
  { intros i Hi. apply Forall_nth; [done|lia]. }
  split; apply (all_counts_spec _ _ _ every_count_decodes_exactly);
    apply Hb; lia.
Qed.

Lemma decode_query_exact_witness :
  reading_of_count (123 + 0 * 256) 12.3 = true
  ∧ reading_of_count (200 + 1 * 256) 45.6 = true.
Proof.
  apply (decode_query_exact [0xaa; 0xc0; 123; 0; 200; 1; 0; 0; 0; 0xab]).
  - repeat constructor; unfold byte_value; lia.
  - reflexivity.
Defined.

(** ** The errors of a round *)

Lemma read_response_raises (fuel : nat) (s s' : Serial) (e : exn) :
  read_response fuel s = Some (Raise e, s') → ∃ m, e = TimeoutError m.
Proof.
  intros H.
  apply read_response_outcome in H
    as (k & _ & _ & [(_ & [= ->] & _)|(k' & bs & pos' & _ & _ & _ & _ & Hr)]).
  - by eexists.
  - destruct (decide (length bs = 9%nat)); [done|]. injection Hr as ->. by eexists.
Qed.

Lemma cmd_set_sleep_eq (fuel : nat) (sleep : Z) (s : Serial) :
  cmd_set_sleep fuel sleep s
  = match read_response fuel (sent (sleep_frame sleep) s) with
    | None => None
    | Some (Ok _, s') => Some (Ok tt, s')
    | Some (Raise e, s') => Some (Raise e, s')
    end.
Proof.
  unfold cmd_set_sleep, sleep_frame.
  destruct (sleep =? 0).
  - assert (construct_command_lit CMD_SLEEP (Some [1; 1]) = Ok (sleep_frame 0))
      as -> by (vm_compute; reflexivity).
    unfold mbind, M_bind, lift_result, ser_write, modify. simpl.
    by destruct (read_response fuel _) as [[[d|e] s']|].
  - assert (construct_command_lit CMD_SLEEP (Some [1; 0]) = Ok (sleep_frame 1))
      as -> by (vm_compute; reflexivity).
    unfold mbind, M_bind, lift_result, ser_write, modify. simpl.
    by destruct (read_response fuel _) as [[[d|e] s']|].
Qed.

Lemma cmd_set_sleep_raises (fuel : nat) (sleep : Z) (s s' : Serial) (e : exn) :
  cmd_set_sleep fuel sleep s = Some (Raise e, s') → ∃ m, e = TimeoutError m.
Proof.
  rewrite cmd_set_sleep_eq.
  destruct (read_response fuel _) as [[[d|e'] s1]|] eqn:E; [done| |done].
  intros [= -> ->]. by apply read_response_raises in E.
Qed.



Lemma on_ser_inv {A} (m : M Serial A) (w w' : World) (r : result A) :
  on_ser m w = Some (r, w') →
  ∃ s', m (ser w) = Some (r, s')
        ∧ w' = mkWorld s' (clock w) (clock_pos w) (cache w) (fs w) (queries w) (log w).
Proof.
  unfold on_ser. destruct (m (ser w)) as [[r' s']|]; [|done].
  intros [= <- <-]. by exists s'.
Qed.







Section RoundFacts.

Variable cfg : Config.
Variable float_repr : float → string.
Variable tmp_base : string.






End RoundFacts.


(** ** The sampling loop, query by query *)

Lemma cmd_set_sleep_tx (fuel : nat) (sleep : Z) (s s' : Serial) (r : result unit) :
  cmd_set_sleep fuel sleep s = Some (r, s') →
  tx s' = tx s ++ [sleep_frame sleep] ∧ rx s' = rx s.
Proof.
  rewrite cmd_set_sleep_eq.
  destruct (read_response fuel _) as [[r1 s1]|] eqn:E; [|done].
  apply read_response_tx in E as [Ht Hr].
  by destruct r1; intros [= _ <-].
Qed.

Lemma cmd_query_data_tx (fuel : nat) (s s' : Serial)
  (r : result (option float * option float)) :
  cmd_query_data fuel s = Some (r, s') →
  tx s' = tx s ++ [query_frame] ∧ rx s' = rx s.
Proof.
  rewrite cmd_query_data_unfold.
  destruct (read_response fuel _) as [[r1 s1]|] eqn:E; [|done].
  apply read_response_tx in E as [Ht Hr].
  by destruct r1; intros [= _ <-].
Qed.

Section SamplingFacts.

Variable cfg : Config.

Lemma sample_once_run (fuel : nat) (samples : list (float * float))
  (w w' : World) (r : result (list (float * float))) :
  sample_once cfg fuel samples w = Some (r, w') →
  ∃ q s',
    cmd_query_data fuel (ser w) = Some (q, s')
    ∧ r = Ok (samples ++ valid_samples [q])
    ∧ w' = mkWorld s' (clock w) (clock_pos w) (cache w) (fs w)
                   (queries w ++ [q]) (log w ++ sample_log cfg q).
Proof.
  unfold sample_once, try_except, mbind, M_bind, query_noted.
  destruct (on_ser (cmd_query_data fuel) w) as [[q w1]|] eqn:E; [|done].
  apply on_ser_inv in E as (s' & Hq & ->).
  intros H. exists q, s'. split; [done|].
  destruct q as [[[pm25|] [pm10|]]|e]; simpl in H |- *;
    try (injection H as <- <-; by rewrite ?app_nil_r).
  destruct (log_raw cfg); simpl in H; injection H as <- <-; by rewrite ?app_nil_r.
Qed.

Lemma sampling_run (fuel : nat) :
  ∀ (start_time : Q) (samples : list (float * float)) (w w' : World)
    (r : result (list (float * float))),
    sampling cfg fuel start_time samples w = Some (r, w') →
    ∃ qs,
      r = Ok (samples ++ valid_samples qs)
      ∧ queries w' = queries w ++ qs
      ∧ log w' = log w ++ concat (sample_log cfg <$> qs)
      ∧ tx (ser w') = tx (ser w) ++ replicate (length qs) query_frame
      ∧ rx (ser w') = rx (ser w)
      ∧ clock w' = clock w
      ∧ clock_pos w' = (clock_pos w + S (length qs))%nat
      ∧ cache w' = cache w ∧ fs w' = fs w
      ∧ (∀ i, (i < length qs)%nat → within_period cfg start_time w i = true)
      ∧ within_period cfg start_time w (length qs) = false.
Proof.
  induction fuel as [|fuel IH]; intros start_time samples w w' r H; [done|].
  simpl in H.
  apply bind_inv in H as [(now & w1 & Ht & H)|(e & Ht & _)]; [|done].
  injection Ht as <- <-.
  destruct (Qlt_bool _ _) eqn:Hnow.
  - apply bind_inv in H as [(samples' & w2 & Hs & H)|(e & Hs & _)];
      [|by apply sample_once_run in Hs as (? & ? & _ & ? & _)].
    apply sample_once_run in Hs as (q & s' & Hq & [= ->] & ->).
    apply cmd_query_data_tx in Hq as [Htx Hrx]. simpl in Htx, Hrx.
    apply bind_inv in H as [([] & w3 & Hsl & H)|(e & Hsl & _)]; [|done].
    injection Hsl as <-.
    apply IH in H as (qs & -> & Hqs & Hlog & Htx' & Hrx' & Hck & Hpos & Hc & Hf & Hin & Hout).
    simpl in *.
    exists (q :: qs). simpl.
    split. { rewrite <- app_assoc. by destruct q as [[[?|] [?|]]|?]. }
    split. { by rewrite Hqs, <- app_assoc. }
    split. { by rewrite Hlog, <- app_assoc. }
    split. { by rewrite Htx', Htx, <- app_assoc. }
    split. { by rewrite Hrx', Hrx. }
    split; [done|]. split; [rewrite Hpos; lia|]. split; [done|]. split; [done|].
    split.
    + intros [|i] Hi.
      * unfold within_period. by rewrite Nat.add_0_r.
      * specialize (Hin i ltac:(lia)). unfold within_period in Hin |- *.
        simpl in Hin. by replace (clock_pos w + S i)%nat with (S (clock_pos w) + i)%nat by lia.
    + unfold within_period in Hout |- *. simpl in Hout.
      by replace (clock_pos w + S (length qs))%nat
        with (S (clock_pos w) + length qs)%nat by lia.
  - injection H as <- <-. exists []. simpl.
    rewrite !app_nil_r.
    split; [done|]. split; [done|]. split; [done|]. split; [done|].
    split; [done|]. split; [done|]. split; [lia|]. split; [done|].
    split; [done|]. split; [intros i Hi; lia|].
    unfold within_period. by rewrite Nat.add_0_r.
Qed.


End SamplingFacts.


(** ** What a round puts on the wire *)

Section WireFacts.

Variable cfg : Config.
Variable float_repr : float → string.
Variable tmp_base : string.

Lemma publish_ser (samples : list (float * float)) (w w' : World) (r : result unit) :
  publish cfg float_repr tmp_base samples w = Some (r, w') →
  r = Ok tt ∧ ser w' = ser w ∧ queries w' = queries w.
Proof.
  destruct samples as [|[pm25 pm10] earlier _] using rev_ind.
  - simpl. by intros [= <- <-].
  - destruct (publish_run cfg float_repr tmp_base earlier pm25 pm10 w)
      as (rw & fs1 & _ & ->).
    by intros [= <- <-].
Qed.

Lemma cycle_body_frames (fuel : nat) (w wb : World) (rb : result unit) :
  cycle_body cfg float_repr tmp_base fuel w = Some (rb, wb) →
  (∃ m s1,
     cmd_set_sleep fuel 0 (ser w) = Some (Raise (TimeoutError m), s1)
     ∧ queries wb = queries w
     ∧ tx (ser wb) = tx (ser w) ++ [sleep_frame 0])
  ∨ (∃ s1 qs,
       cmd_set_sleep fuel 0 (ser w) = Some (Ok tt, s1)
       ∧ queries wb = queries w ++ qs
       ∧ tx (ser wb) = tx (ser w) ++ [sleep_frame 0]
                       ++ replicate (length qs) query_frame ++ [sleep_frame 1]).
Proof.
  unfold cycle_body. intros Hb.
  apply bind_inv in Hb as [([] & w1 & H1 & H)|(e & H1 & _)]; [|done].
  injection H1 as <-.
  apply bind_inv in H as [([] & w2 & H2 & H)|(e & H2 & ->)].
  2:{ left. apply on_ser_inv in H2 as (s1 & H2 & ->). simpl in H2 |- *.
      destruct (cmd_set_sleep_raises _ _ _ _ _ H2) as [m ->].
      exists m, s1. split; [done|]. split; [done|].
      by apply cmd_set_sleep_tx in H2 as [? _]. }
  right. apply on_ser_inv in H2 as (s1 & H2 & ->). simpl in H2.
  pose proof (cmd_set_sleep_tx _ _ _ _ _ H2) as [Htx1 _].
  apply bind_inv in H as [([] & w3 & H3 & H)|(e & H3 & _)]; [|done].
  injection H3 as <-.
  apply bind_inv in H as [(start_time & w4 & H4 & H)|(e & H4 & _)]; [|done].
  injection H4 as _ <-.
  apply bind_inv in H as [(samples & w5 & H5 & H)|(e & H5 & _)];
    apply sampling_run in H5
      as (qs & Hr & Hqs & _ & Htx5 & _); [|done].
  simpl in Hqs, Htx5.
  exists s1, qs. split; [done|].
  apply bind_inv in H as [([] & w6 & H6 & H)|(e & H6 & _)];
    apply publish_ser in H6 as (Hr6 & Hs6 & Hq6); [|done].
  apply bind_inv in H as [([] & w7 & H7 & H)|(e & H7 & _)]; [|done].
  injection H7 as <-.
  assert (∃ s8, cmd_set_sleep fuel 1 (ser w6) = Some (rb, s8)
                ∧ ser wb = s8 ∧ queries wb = queries w6) as (s8 & H8 & <- & ->).
  { apply bind_inv in H as [([] & w8 & H8 & H)|(e & H8 & ->)].
    - injection H as <- <-.
      apply on_ser_inv in H8 as (s8 & H8 & ->). by exists s8.
    - apply on_ser_inv in H8 as (s8 & H8 & ->). by exists s8. }
  apply cmd_set_sleep_tx in H8 as [Htx8 _].
  split; [by rewrite Hq6|].
  rewrite Htx8, Hs6, Htx5, Htx1, <- !app_assoc. done.
Qed.

(** The [except] clause of a round leaves the port and the history
    alone. *)
Lemma cycle_handler (fuel : nat) (w w' : World) (r : result unit) :
  cycle cfg float_repr tmp_base fuel w = Some (r, w') →
  r = Ok tt
  ∧ ∃ rb wb, cycle_body cfg float_repr tmp_base fuel w = Some (rb, wb)
             ∧ ser w' = ser wb ∧ queries w' = queries wb
             ∧ cache w' = cache wb ∧ fs w' = fs wb.
Proof.
  unfold cycle, try_except. intros H.
  destruct (cycle_body cfg float_repr tmp_base fuel w) as [[rb wb]|] eqn:Hb; [|done].
  destruct rb as [[]|e].
  - injection H as <- <-. split; [done|]. by exists (Ok tt), wb.
  - injection H as <- <-. split; [done|]. by exists (Raise e), wb.
Qed.


(** The frames of a round are wake, query and sleep frames. *)
Lemma cycle_sent (fuel : nat) (w w' : World) (r : result unit) :
  cycle cfg float_repr tmp_base fuel w = Some (r, w') →
  ∃ sent, tx (ser w') = tx (ser w) ++ sent ∧ Forall round_frame sent.
Proof.
  intros H.
  apply cycle_handler in H as (_ & rb & wb & Hb & -> & _).
  apply cycle_body_frames in Hb
    as [(m & s1 & _ & _ & Htx)|(s1 & qs & _ & _ & Htx)]; eexists; (split; [exact Htx|]).
  - apply Forall_singleton. by left.
  - apply Forall_cons_2; [by left|]. apply Forall_app. split.
    + apply Forall_replicate. right. by left.
    + apply Forall_singleton. right. by right.
Qed.

(** A round leaves the cache as it was or with a complete set of
    readings. *)
Lemma cycle_cache (fuel : nat) (w w' : World) (r : result unit) :
  cycle cfg float_repr tmp_base fuel w = Some (r, w') →
  cache_kept (cache w) (cache w').
Proof.
  intros H.
  apply cycle_outcome in H
    as [(Hc & _)|(qs & w1 & w2 & rp & Hc & _ & _ & Hp & Hc2 & _)]; [by left|].
  destruct (valid_samples qs) as [|[pm25 pm10] earlier _] using rev_ind.
  - simpl in Hp. injection Hp as _ <-. simpl in Hc2. left. by rewrite Hc2.
  - destruct (publish_run cfg float_repr tmp_base earlier pm25 pm10 w1)
      as (rw & fs1 & _ & Hp').
    rewrite Hp' in Hp. injection Hp as _ <-. simpl in Hc2.
    right. rewrite Hc2. by eexists _, _, _.
Qed.

End WireFacts.


(** ** The snapshot file: when the write succeeds and how it fails *)

Lemma dirname_bare (p : string) :
  forallb (λ c, negb (is_sep c)) (String.list_ascii_of_string p) = true →
  dirname p = "".
Proof.
  intros H. unfold dirname.
  pose proof (forallb_reverse (λ c, negb (is_sep c)) (String.list_ascii_of_string p))
    as Hr.
  rewrite H in Hr.
  pose proof (drop_while_all _ _ [] Hr) as Hd. rewrite app_nil_r in Hd.
  rewrite Hd. reflexivity.
Qed.



Section SnapshotFacts.

Variable cfg : Config.
Variable float_repr : float → string.
Variable tmp_base : string.



(** X14: a [json_output] without a directory part (a bare file name) can
    never be written: [os.path.dirname] gives the empty string, on which
    [os.makedirs] raises FileNotFoundError; [write_json] logs the error
    and returns, and no file is created or changed. *)
Theorem write_json_bare_filename (ts : option Z) (pm25 pm10 : float) (w : World) :
  forallb (λ c, negb (is_sep c)) (String.list_ascii_of_string (json_output cfg)) = true →
  write_json cfg float_repr tmp_base ts pm25 pm10 w
  = Some (Ok tt,
          mkWorld (ser w) (clock w) (clock_pos w) (cache w) (fs w) (queries w)
                  (log w ++ [LogWriteError (OSError FileNotFoundError)])).
Proof.
  intros Hbare. apply dirname_bare in Hbare.
  unfold write_json, try_except, on_fs, write_json_ops.
  rewrite Hbare.
  change ([Makedirs ""; Mkstemp ?t] ++ ?r) with (Makedirs "" :: Mkstemp t :: r).
  rewrite fs_exec_cons. reflexivity.
Qed.



End SnapshotFacts.

Lemma write_json_bare_filename_witness :
  let cfg := mkConfig "particles.txt" false 60 60 2 in
  let w := example_world [] in
  write_json cfg example_repr "tmpk3v9x_q2" (Some 1730000000) 3 3 w
  = Some (Ok tt,
          mkWorld (ser w) (clock w) (clock_pos w) (cache w) (fs w) (queries w)
                  [LogWriteError (OSError FileNotFoundError)]).
Proof.
  intros cfg w.
  apply (write_json_bare_filename cfg example_repr "tmpk3v9x_q2"
           (Some 1730000000) 3%float 3%float w).
  reflexivity.
Defined.



(** ** From a round to the loop packets *)

(** X17: [new_loop_packet] changes no field of the packet but [pm2_5] and
    [pm10_0]; it does not look at [last_update], so readings are added
    however old they are; and adding them twice is adding them once. *)
Theorem new_loop_packet_fields (c : Cache) (pkt : gmap string pyval) :
  (∀ k, k ≠ "pm2_5" → k ≠ "pm10_0" → new_loop_packet c pkt !! k = pkt !! k)
  ∧ (∀ ts, new_loop_packet (mkCache (latest_pm25 c) (latest_pm10 c) ts) pkt
           = new_loop_packet c pkt)
  ∧ new_loop_packet c (new_loop_packet c pkt) = new_loop_packet c pkt.
Proof.
  unfold new_loop_packet. simpl.
  destruct (latest_pm25 c) as [pm25|], (latest_pm10 c) as [pm10|];
    (split; [|split; [done|]]); try done.
  - intros k H25 H10. by rewrite !lookup_insert_ne.
  - apply map_eq. intros k.
    destruct (decide (k = "pm10_0")) as [->|H10];
      [by rewrite !lookup_insert_eq|rewrite !(lookup_insert_ne _ "pm10_0") by done].
    destruct (decide (k = "pm2_5")) as [->|H25];
      [by rewrite !lookup_insert_eq|by rewrite !lookup_insert_ne].
Qed.

Section PacketFacts.

Variable cfg : Config.
Variable float_repr : float → string.
Variable tmp_base : string.


End PacketFacts.


(** ** What the decoder does not check *)

(** X19: [cmd_query_data] checks the header, the type and the tail of a
    reply and nothing else: the device id (bytes 6 and 7) and the checksum
    (byte 8) are not looked at, so a reply with a wrong checksum decodes
    like the one with the right checksum. *)
Theorem decode_query_ignores_checksum (d : list Z) (i : nat) (x : Z) :
  (6 ≤ i ≤ 8)%nat →
  decode_query (<[i := x]> d) = decode_query d.
Proof.
  intros Hi. unfold decode_query.
  rewrite length_insert.
  assert (∀ j, j ≠ i → nth j (<[i := x]> d) 0 = nth j d 0) as Hnth.
  { intros j Hj. rewrite !nth_lookup. by rewrite list_lookup_insert_ne. }
  rewrite !Hnth by lia. done.
Qed.

Lemma decode_query_ignores_checksum_witness :
  decode_query [0xaa; 0xc0; 123; 0; 200; 1; 0; 0; 0; 0xab]
  = decode_query [0xaa; 0xc0; 123; 0; 200; 1; 0; 0; 68; 0xab].
Proof.
  apply (decode_query_ignores_checksum
           [0xaa; 0xc0; 123; 0; 200; 1; 0; 0; 68; 0xab] 8 0).
  lia.
Defined.

(** * The service object *)

Lemma on_world_inv {A} (m : M World A) (sv sv' : Service) (r : result A) :
  on_world m sv = Some (r, sv') →
  ∃ w', m (world sv) = Some (r, w') ∧ sv' = with_world w' sv.
Proof.
  unfold on_world. destruct (m (world sv)) as [[r' w']|]; [|done].
  intros [= <- <-]. by exists w'.
Qed.

Lemma on_world_ser_inv {A} (m : M Serial A) (sv sv' : Service) (r : result A) :
  on_world (on_ser m) sv = Some (r, sv') →
  ∃ s', m (ser (world sv)) = Some (r, s')
        ∧ sv' = with_world (with_ser s' (world sv)) sv.
Proof.
  intros H. apply on_world_inv in H as (w' & H & ->).
  apply on_ser_inv in H as (s' & H & ->). by exists s'.
Qed.

Lemma cmd_set_mode_query_eq (fuel : nat) (s : Serial) :
  cmd_set_mode fuel MODE_QUERY s
  = match read_response fuel (sent (mode_frame MODE_QUERY) s) with
    | None => None
    | Some (Ok _, s') => Some (Ok tt, s')
    | Some (Raise e, s') => Some (Raise e, s')
    end.
Proof.
  unfold cmd_set_mode.
  assert (construct_command_lit CMD_MODE (Some [1; MODE_QUERY])
          = Ok (mode_frame MODE_QUERY)) as -> by (vm_compute; reflexivity).
  unfold mbind, M_bind, lift_result, ser_write, modify. simpl.
  by destruct (read_response fuel _) as [[[d|e] s']|].
Qed.

Lemma cmd_set_mode_query_run (fuel : nat) (s s' : Serial) (r : result unit) :
  cmd_set_mode fuel MODE_QUERY s = Some (r, s') →
  tx s' = tx s ++ [mode_frame MODE_QUERY] ∧ rx s' = rx s
  ∧ (r = Ok tt ∨ ∃ m, r = Raise (TimeoutError m)).
Proof.
  rewrite cmd_set_mode_query_eq.
  destruct (read_response fuel _) as [[r1 s1]|] eqn:E; [|done].
  pose proof (read_response_tx _ _ _ _ E) as [Ht Hr].
  destruct r1 as [d|e]; intros [= <- <-]; (split; [done|]); (split; [done|]).
  - by left.
  - right. apply read_response_raises in E as [m ->]. by exists m.
Qed.

Lemma cmd_set_sleep_run (fuel : nat) (sleep : Z) (s s' : Serial) (r : result unit) :
  cmd_set_sleep fuel sleep s = Some (r, s') →
  tx s' = tx s ++ [sleep_frame sleep] ∧ rx s' = rx s
  ∧ (r = Ok tt ∨ ∃ m, r = Raise (TimeoutError m)).
Proof.
  intros H. pose proof (cmd_set_sleep_tx _ _ _ _ _ H) as [Ht Hr].
  split; [done|]. split; [done|].
  destruct r as [[]|e]; [by left|right].
  apply cmd_set_sleep_raises in H as [m ->]. by exists m.
Qed.

(** Wake, flush, set query mode: what has happened when it is over. *)
Lemma wake_and_set_mode_run (fuel : nat) (sv sv' : Service) (r : result unit) :
  wake_and_set_mode fuel sv = Some (r, sv') →
  ∃ s' k,
    sv' = mkService (with_ser s' (world sv)) (opened sv) (closed sv) (buffered sv)
                    (n_flush sv + k) (running sv) (n_running sv) (journal sv)
    ∧ rx s' = rx (ser (world sv))
    ∧ (((∃ m, r = Raise (TimeoutError m)) ∧ k = 0%nat
        ∧ tx s' = tx (ser (world sv)) ++ [sleep_frame 0])
       ∨ ((r = Ok tt ∨ ∃ m, r = Raise (TimeoutError m)) ∧ k = 1%nat
          ∧ tx s' = tx (ser (world sv)) ++ [sleep_frame 0; mode_frame MODE_QUERY])).
Proof.
  unfold wake_and_set_mode. intros H. destruct sv as [w o c b nf ru nr j].
  apply bind_inv in H as [([] & sv1 & H1 & H)|(e & H1 & ->)];
    apply on_world_ser_inv in H1 as (s1 & H1 & ->);
    apply cmd_set_sleep_run in H1 as (Ht1 & Hr1 & Hres1); simpl in *.
  2:{ exists s1, 0%nat. rewrite Nat.add_0_r. split; [done|]. split; [done|].
      left. destruct Hres1 as [?|?]; [done|]. by split. }
  apply bind_inv in H as [([] & sv2 & H2 & H)|(e & H2 & _)]; [|done].
  injection H2 as <-.
  apply bind_inv in H as [([] & sv3 & H3 & H)|(e & H3 & _)]; [|done].
  injection H3 as <-. simpl in H.
  apply on_world_ser_inv in H as (s4 & H4 & ->). simpl in *.
  apply cmd_set_mode_query_run in H4 as (Ht4 & Hr4 & Hres4). simpl in *.
  exists s4, 1%nat. split; [by rewrite Nat.add_1_r|].
  split; [by rewrite Hr4|]. right. split; [done|]. split; [done|].
  by rewrite Ht4, Ht1, <- app_assoc.
Qed.

(** ** initialize_sensor *)

(** One turn of the [for] loop: the [try] block and its handler. *)
Lemma init_attempt_run (fuel attempt : nat) (sv sv' : Service) (r : result bool) :
  try_except
    (journal_msg (LogInitAttempt attempt);;
     wake_and_set_mode fuel;;
     journal_msg LogInitOk;;
     mret true)
    (fun e =>
       journal_msg (LogInitAttemptFailed attempt e);;
       (if (attempt <? init_retries - 1)%nat then on_world (time_sleep 3)
        else journal_msg LogInitGaveUp);;
       mret false) sv = Some (r, sv') →
  ∃ s' k sent tail,
    sv' = mkService (with_ser s' (world sv)) (opened sv) (closed sv) (buffered sv)
                    (n_flush sv + k) (running sv) (n_running sv)
                    (journal sv ++ LogInitAttempt attempt :: tail)
    ∧ rx s' = rx (ser (world sv))
    ∧ tx s' = tx (ser (world sv)) ++ sent
    ∧ Forall init_frame sent ∧ (length sent ≤ 2)%nat ∧ (k ≤ 1)%nat
    ∧ ((r = Ok true ∧ tail = [LogInitOk]
        ∧ sent = [sleep_frame 0; mode_frame MODE_QUERY])
       ∨ (∃ m, r = Ok false
               ∧ tail = LogInitAttemptFailed attempt (TimeoutError m)
                        :: (if (attempt <? init_retries - 1)%nat then []
                            else [LogInitGaveUp]))).
Proof.
  unfold try_except. intros H.
  destruct ((journal_msg (LogInitAttempt attempt);; wake_and_set_mode fuel;;
             journal_msg LogInitOk;; mret true) sv) as [[rb svb]|] eqn:Hb; [|done].
  apply bind_inv in Hb as [([] & sv1 & H1 & Hb)|(e & H1 & _)]; [|done].
  injection H1 as <-.
  assert (∃ rw svw, wake_and_set_mode fuel
                      (mkService (world sv) (opened sv) (closed sv) (buffered sv)
                                 (n_flush sv) (running sv) (n_running sv)
                                 (journal sv ++ [LogInitAttempt attempt]))
                    = Some (rw, svw)
                    ∧ ((rw = Ok tt ∧ rb = Ok true
                        ∧ svb = mkService (world svw) (opened svw) (closed svw)
                                  (buffered svw) (n_flush svw) (running svw)
                                  (n_running svw) (journal svw ++ [LogInitOk]))
                       ∨ (∃ e, rw = Raise e ∧ rb = Raise e ∧ svb = svw)))
    as (rw & svw & Hw & Hcase).
  { apply bind_inv in Hb as [([] & sv2 & H2 & Hb)|(e & H2 & ->)].
    - exists (Ok tt), sv2. split; [done|]. left.
      injection Hb as <- <-. done.
    - exists (Raise e), svb. split; [done|]. right. by exists e. }
  apply wake_and_set_mode_run in Hw as (s' & k & -> & Hrx & Hk). simpl in *.
  assert (Forall init_frame [sleep_frame 0; mode_frame MODE_QUERY]) as Hboth.
  { apply Forall_cons_2; [by left|]. apply Forall_singleton. by right. }
  assert (Forall init_frame [sleep_frame 0]) as Hone.
  { apply Forall_singleton. by left. }
  destruct Hcase as [(-> & -> & ->)|(e & -> & -> & ->)].
  - injection H as <- <-.
    destruct Hk as [([m ?] & _)|(_ & -> & Htx)]; [done|].
    exists s', 1%nat, [sleep_frame 0; mode_frame MODE_QUERY], [LogInitOk].
    simpl. rewrite <- app_assoc.
    split; [done|]. split; [done|]. split; [done|]. split; [done|].
    split; [lia|]. split; [lia|]. by left.
  - assert (∃ m, e = TimeoutError m) as [m ->].
    { destruct Hk as [([m [= ->]] & _)|([?|[m [= ->]]] & _)]; [by exists m|done|by exists m]. }
    assert (∃ sent, tx s' = tx (ser (world sv)) ++ sent ∧ Forall init_frame sent
                    ∧ (length sent ≤ 2)%nat ∧ (k ≤ 1)%nat) as (sent & Htx & Hf & Hl & Hk').
    { destruct Hk as [(_ & -> & Htx)|(_ & -> & Htx)]; eexists; (split; [exact Htx|]);
        (split; [done|]); simpl; lia. }
    exists s', k, sent.
    destruct (attempt <? 2)%nat;
      unfold mbind, M_bind, journal_msg, modify, on_world, time_sleep, mret, M_ret in H;
      simpl in H; injection H as <- <-; simpl;
      rewrite <- ?app_assoc; simpl; eexists; (split; [done|]);
      (split; [done|]); (split; [done|]); (split; [done|]);
      (split; [done|]); (split; [done|]); right; by exists m.
Qed.

Lemma initialize_attempts_run (fuel : nat) :
  ∀ (n first : nat) (sv sv' : Service) (r : result unit),
    (first + n = init_retries)%nat →
    initialize_attempts fuel (seq first n) sv = Some (r, sv') →
    r = Ok tt
    ∧ ∃ s' k sent failures,
        sv' = mkService (with_ser s' (world sv)) (opened sv) (closed sv) (buffered sv)
                        (n_flush sv + k) (running sv) (n_running sv)
                        (journal sv ++ failed_attempts first failures
                         ++ (if (length failures <? n)%nat
                             then [LogInitAttempt (first + length failures); LogInitOk]
                             else if (n =? 0)%nat then [] else [LogInitGaveUp]))
        ∧ rx s' = rx (ser (world sv))
        ∧ tx s' = tx (ser (world sv)) ++ sent
        ∧ Forall init_frame sent ∧ (length sent ≤ 2 * n)%nat ∧ (k ≤ n)%nat
        ∧ (length failures ≤ n)%nat
        ∧ Forall (λ e, ∃ m, e = TimeoutError m) failures
        ∧ ((length failures < n)%nat →
           ∃ earlier, sent = earlier ++ [sleep_frame 0; mode_frame MODE_QUERY]).
Proof.
  induction n as [|n IH]; intros first sv sv' r Hn H.
  - injection H as <- <-. split; [done|].
    exists (ser (world sv)), 0%nat, [], []. simpl.
    rewrite !app_nil_r, Nat.add_0_r.
    split; [by destruct sv as [[] ? ? ? ? ? ? ?]|].
    split; [done|]. split; [done|]. split; [done|]. split; [lia|].
    split; [lia|]. split; [lia|]. split; [done|]. lia.
  - change (seq first (S n)) with (first :: seq (S first) n) in H.
    cbn [initialize_attempts] in H.
    apply bind_inv in H as [(returned & sv1 & H1 & H)|(e & H1 & _)];
      apply init_attempt_run in H1
        as (s1 & k1 & sent1 & tail & -> & Hrx1 & Htx1 & Hf1 & Hl1 & Hk1 & Hcase);
      [|by destruct Hcase as [(? & _)|(m & ? & _)]].
    destruct Hcase as [([= ->] & -> & ->)|(m & [= ->] & ->)].
    + injection H as <- <-. split; [done|].
      exists s1, k1, [sleep_frame 0; mode_frame MODE_QUERY], []. simpl.
      rewrite Nat.add_0_r.
      split; [done|]. split; [done|]. split; [done|]. split; [done|].
      split; [lia|]. split; [lia|]. split; [lia|]. split; [done|].
      intros _. by exists [].
    + apply (IH (S first)) in H as (-> & s' & k & sent & failures & -> & Hrx & Htx
                                       & Hf & Hl & Hk & Hlen & Hto & Hok); [|lia].
      simpl in *. split; [done|].
      exists s', (k1 + k)%nat, (sent1 ++ sent), (TimeoutError m :: failures).
      split.
      { rewrite Nat.add_assoc. f_equal. rewrite <- !app_assoc. f_equal. simpl.
        f_equal. f_equal.
        unfold init_retries in Hn.
        change (S (length failures) <? S n)%nat with (length failures <? n)%nat.
        replace (first + S (length failures))%nat
          with (S (first + length failures)) by lia.
        destruct (first <? 2)%nat eqn:E1.
        - apply Nat.ltb_lt in E1. simpl.
          by replace (n =? 0)%nat with false by (symmetry; apply Nat.eqb_neq; lia).
        - apply Nat.ltb_ge in E1. assert (n = 0%nat) as -> by lia.
          destruct failures; [done|simpl in Hlen; lia]. }
      split; [by rewrite Hrx|]. split; [by rewrite Htx, Htx1, app_assoc|].
      split; [by apply Forall_app|]. rewrite length_app.
      split; [lia|]. split; [lia|]. split; [simpl; lia|].
      split; [apply Forall_cons_2; [by exists m|done]|].
      intros Hlt. simpl in Hlt. destruct Hok as [earlier ->]; [lia|].
      exists (sent1 ++ earlier). by rewrite app_assoc.
Qed.

(** X20: [initialize_sensor] never raises and makes at most three
    attempts, stopping at the first in which both the wake command and the
    set-mode command were answered.  Every failure of an attempt is a
    timeout on the line; after the third, the errors are logged and the
    function returns normally all the same.  It sends nothing but wake
    frames and set-query-mode frames, at most six of them, and after a
    successful attempt the last two sent are the wake frame and the
    set-mode frame.  Cache, files and the flags of the service are
    untouched. *)
Theorem initialize_sensor_attempts (fuel : nat) (sv sv' : Service) (r : result unit) :
  initialize_sensor fuel sv = Some (r, sv') →
  r = Ok tt
  ∧ ∃ failures sent,
      (length failures ≤ 3)%nat
      ∧ Forall (λ e, ∃ m, e = TimeoutError m) failures
      ∧ journal sv'
        = journal sv ++ failed_attempts 0 failures
          ++ (if (length failures <? 3)%nat
              then [LogInitAttempt (length failures); LogInitOk]
              else [LogInitGaveUp])
      ∧ tx (ser (world sv')) = tx (ser (world sv)) ++ sent
      ∧ Forall init_frame sent ∧ (length sent ≤ 6)%nat
      ∧ ((length failures < 3)%nat →
         ∃ earlier, sent = earlier ++ [sleep_frame 0; mode_frame MODE_QUERY])
      ∧ cache (world sv') = cache (world sv)
      ∧ fs (world sv') = fs (world sv)
      ∧ opened sv' = opened sv ∧ closed sv' = closed sv
      ∧ running sv' = running sv ∧ n_running sv' = n_running sv.
Proof.
  unfold initialize_sensor. intros H.
  apply (initialize_attempts_run fuel 3 0) in H
    as (-> & s' & k & sent & failures & -> & Hrx & Htx & Hf & Hl & Hk & Hlen & Hto & Hok);
    [|done].
  split; [done|]. exists failures, sent. simpl.
  split; [done|]. split; [done|]. split; [done|]. split; [done|].
  split; [done|]. split; [lia|]. by repeat split.
Qed.

(** First attempt unanswered, second answered. *)
Lemma initialize_sensor_attempts_witness :
  let sv := example_service (replicate 10 None ++ example_ack ++ example_ack) 0 in
  ∃ sv',
    initialize_sensor 100 sv = Some (Ok tt, sv')
    ∧ journal sv' = [LogInitAttempt 0; LogInitAttemptFailed 0 (TimeoutError NoResponse);
                     LogInitAttempt 1; LogInitOk]
    ∧ tx (ser (world sv')) = [sleep_frame 0; sleep_frame 0; mode_frame MODE_QUERY].
Proof.
  intros sv.
  destruct (initialize_sensor 100 sv) as [[r sv']|] eqn:E;
    [|exfalso; vm_compute in E; discriminate].
  destruct (initialize_sensor_attempts _ _ _ _ E) as [-> _].
  exists sv'. split; [reflexivity|].
  vm_compute in E. injection E as <-. split; reflexivity.
Defined.

(** ** sensor_loop *)

Lemma cache_kept_refl (c : Cache) : cache_kept c c.
Proof. by left. Qed.

Lemma cache_kept_trans (c1 c2 c3 : Cache) :
  cache_kept c1 c2 → cache_kept c2 c3 → cache_kept c1 c3.
Proof.
  intros H12 [->|H23]; [done|]. by right.
Qed.

Lemma mode_frame_not_round_frame : ¬ round_frame (mode_frame MODE_QUERY).
Proof. by intros [H|[H|H]]. Qed.

Section LoopFacts.

Variable cfg : Config.
Variable float_repr : float → string.
Variable tmp_base : string.

Lemma rounds_run (fuel : nat) :
  ∀ (sv sv' : Service) (r : result unit),
    rounds cfg float_repr tmp_base fuel sv = Some (r, sv') →
    r = Ok tt
    ∧ ∃ k w' sent,
        sv' = mkService w' (opened sv) (closed sv) (buffered sv) (n_flush sv)
                        (running sv) (n_running sv + S k) (journal sv)
        ∧ (∀ i, (i < k)%nat → running sv (n_running sv + i)%nat = true)
        ∧ running sv (n_running sv + k)%nat = false
        ∧ tx (ser w') = tx (ser (world sv)) ++ sent
        ∧ Forall round_frame sent
        ∧ cache_kept (cache (world sv)) (cache w').
Proof.
  induction fuel as [|fuel IH]; intros sv sv' r H; [done|].
  cbn [rounds] in H.
  apply bind_inv in H as [(go & sv1 & H1 & H)|(e & H1 & _)]; [|done].
  injection H1 as <- <-.
  destruct (running sv (n_running sv)) eqn:Hgo.
  - apply bind_inv in H as [([] & sv2 & H2 & H)|(e & H2 & _)];
      apply on_world_inv in H2 as (w2 & H2 & ->); simpl in H2;
      [|by apply cycle_handler in H2 as [? _]].
    pose proof (cycle_sent _ _ _ _ _ _ _ H2) as (sent1 & Htx1 & Hf1).
    pose proof (cycle_cache _ _ _ _ _ _ _ H2) as Hc1.
    apply IH in H as (-> & k & w' & sent & -> & Hin & Hout & Htx & Hf & Hc).
    simpl in *. split; [done|].
    exists (S k), w', (sent1 ++ sent).
    split; [f_equal; lia|].
    split.
    { intros [|i] Hi; [by rewrite Nat.add_0_r|].
      replace (n_running sv + S i)%nat with (S (n_running sv + i)) by lia.
      apply Hin. lia. }
    split; [by replace (n_running sv + S k)%nat with (S (n_running sv + k)) by lia|].
    split; [by rewrite Htx, Htx1, app_assoc|].
    split; [by apply Forall_app|].
    by apply (cache_kept_trans _ (cache w2)).
  - injection H as <- <-. split; [done|].
    exists 0%nat, (world sv), []. simpl. rewrite app_nil_r, Nat.add_0_r.
    split; [f_equal; lia|]. split; [intros i Hi; lia|]. split; [done|].
    split; [done|]. split; [done|]. apply cache_kept_refl.
Qed.

(** The head of the thread and the rounds. *)
Lemma sensor_loop_run (fuel : nat) (sv sv' : Service) (r : result unit) :
  opened sv = true →
  sensor_loop cfg float_repr tmp_base fuel sv = Some (r, sv') →
  r = Ok tt
  ∧ ∃ k w' pre sent tail nf,
      sv' = mkService w' (opened sv) (closed sv) (buffered sv) nf
                      (running sv) (n_running sv + S k)
                      (journal sv ++ LogBackgroundInit :: tail)
      ∧ (tail = [LogBackgroundInitOk]
         ∨ ∃ m, tail = [LogBackgroundInitFailed (TimeoutError m)])
      ∧ (∀ i, (i < k)%nat → running sv (n_running sv + i)%nat = true)
      ∧ running sv (n_running sv + k)%nat = false
      ∧ tx (ser w') = tx (ser (world sv)) ++ pre ++ sent
      ∧ (pre = [sleep_frame 0] ∨ pre = [sleep_frame 0; mode_frame MODE_QUERY])
      ∧ Forall round_frame sent
      ∧ cache_kept (cache (world sv)) (cache w').
Proof.
  intros Hopen. unfold sensor_loop. intros H.
  apply bind_inv in H as [(sv0 & ? & [= <- <-] & H)|(e & [=] & _)].
  rewrite Hopen in H.
  assert (∃ s1 k1 tail pre,
            rounds cfg float_repr tmp_base fuel
              (mkService (with_ser s1 (world sv)) (opened sv) (closed sv) (buffered sv)
                         (n_flush sv + k1) (running sv) (n_running sv)
                         (journal sv ++ LogBackgroundInit :: tail))
            = Some (r, sv')
            ∧ (tail = [LogBackgroundInitOk]
               ∨ ∃ m, tail = [LogBackgroundInitFailed (TimeoutError m)])
            ∧ tx s1 = tx (ser (world sv)) ++ pre
            ∧ (pre = [sleep_frame 0] ∨ pre = [sleep_frame 0; mode_frame MODE_QUERY]))
    as (s1 & k1 & tail & pre & Hr & Htail & Htx1 & Hpre).
  { apply bind_inv in H as [([] & sv1 & H1 & H)|(e & H1 & _)].
    2:{ exfalso. unfold try_except in H1.
        destruct ((journal_msg LogBackgroundInit;; wake_and_set_mode fuel;;
                   journal_msg LogBackgroundInitOk) sv) as [[[[]|e'] svb]|]; done. }
    unfold try_except in H1.
    destruct ((journal_msg LogBackgroundInit;; wake_and_set_mode fuel;;
               journal_msg LogBackgroundInitOk) sv) as [[rb svb]|] eqn:Hb; [|done].
    apply bind_inv in Hb as [([] & sv2 & H2 & Hb)|(e & H2 & _)]; [|done].
    injection H2 as <-.
    apply bind_inv in Hb as [([] & sv3 & H3 & Hb)|(e & H3 & ->)];
      apply wake_and_set_mode_run in H3 as (s1 & k1 & -> & _ & Hk); simpl in *.
    - injection Hb as <- <-. injection H1 as <-. simpl in H.
      rewrite <- app_assoc in H.
      destruct Hk as [([m ?] & _)|(_ & _ & Htx)]; [done|].
      exists s1, k1, [LogBackgroundInitOk], [sleep_frame 0; mode_frame MODE_QUERY].
      split; [done|]. split; [by left|]. split; [done|]. by right.
    - injection H1 as <-. simpl in H. rewrite <- app_assoc in H.
      assert (∃ m, e = TimeoutError m) as [m ->].
      { destruct Hk as [([m [= ->]] & _)|([?|[m [= ->]]] & _)];
          [by exists m|done|by exists m]. }
      assert (∃ pre, tx s1 = tx (ser (world sv)) ++ pre
                     ∧ (pre = [sleep_frame 0]
                        ∨ pre = [sleep_frame 0; mode_frame MODE_QUERY])) as (pre & ? & ?).
      { destruct Hk as [(_ & _ & Htx)|(_ & _ & Htx)]; eexists; (split; [exact Htx|]);
          [by left|by right]. }
      exists s1, k1, [LogBackgroundInitFailed (TimeoutError m)], pre.
      split; [done|]. split; [right; by exists m|]. by split. }
  apply rounds_run in Hr as (-> & k & w' & sent & -> & Hin & Hout & Htx & Hf & Hc).
  simpl in *. split; [done|].
  exists k, w', pre, sent, tail, (n_flush sv + k1)%nat.
  split; [done|]. split; [done|]. split; [done|]. split; [done|].
  split; [by rewrite Htx, Htx1, <- app_assoc|]. by repeat split.
Qed.

(** X21: [sensor_loop] never raises, so the thread ends only by returning.
    Without a port it returns at once and changes nothing.  With a port it
    tries the initialisation once, logging its success or the timeout it
    met, and then makes one round for each test of [self.running] that
    finds the flag set, returning at the first test that finds it
    cleared.  Through all the rounds the cache is either never written or
    holds a complete set of readings: it is never cleared. *)
Theorem sensor_loop_rounds (fuel : nat) (sv sv' : Service) (r : result unit) :
  sensor_loop cfg float_repr tmp_base fuel sv = Some (r, sv') →
  r = Ok tt
  ∧ (opened sv = false → sv' = sv)
  ∧ (opened sv = true →
     ∃ k,
       n_running sv' = (n_running sv + S k)%nat
       ∧ (∀ i, (i < k)%nat → running sv (n_running sv + i)%nat = true)
       ∧ running sv (n_running sv + k)%nat = false
       ∧ (journal sv' = journal sv ++ [LogBackgroundInit; LogBackgroundInitOk]
          ∨ ∃ m, journal sv'
                 = journal sv ++ [LogBackgroundInit;
                                  LogBackgroundInitFailed (TimeoutError m)])
       ∧ cache_kept (cache (world sv)) (cache (world sv'))
       ∧ closed sv' = closed sv).
Proof.
  intros H. destruct (opened sv) eqn:Hopen.
  - apply sensor_loop_run in H
      as (-> & k & w' & pre & sent & tail & nf & -> & Htail & Hin & Hout & _ & _ & _ & Hc);
      [|done].
    split; [done|]. split; [done|]. intros _. exists k. simpl.
    split; [done|]. split; [done|]. split; [done|].
    split; [|by split].
    destruct Htail as [->|[m ->]]; [by left|right; by exists m].
  - unfold sensor_loop in H.
    apply bind_inv in H as [(sv0 & ? & [= <- <-] & H)|(e & [=] & _)].
    rewrite Hopen in H. injection H as <- <-. by repeat split.
Qed.

(** X22: what the thread sends.  The set-query-mode command is sent at
    most once, at the head of the thread and only when the wake command
    before it was answered; the rounds send wake, query and sleep frames
    and nothing else.  So when the initialisation at the head fails, no
    later round sets the query mode, although the log line says it will be
    retried in the loop. *)
Theorem sensor_loop_wire (fuel : nat) (sv sv' : Service) (r : result unit) :
  opened sv = true →
  sensor_loop cfg float_repr tmp_base fuel sv = Some (r, sv') →
  ∃ pre sent,
    tx (ser (world sv')) = tx (ser (world sv)) ++ pre ++ sent
    ∧ (pre = [sleep_frame 0] ∨ pre = [sleep_frame 0; mode_frame MODE_QUERY])
    ∧ Forall round_frame sent
    ∧ mode_frame MODE_QUERY ∉ sent.
Proof.
  intros Hopen H.
  apply sensor_loop_run in H
    as (-> & k & w' & pre & sent & tail & nf & -> & _ & _ & _ & Htx & Hpre & Hf & _);
    [|done].
  exists pre, sent. simpl. split; [done|]. split; [done|]. split; [done|].
  intros Hin. rewrite Forall_forall in Hf.
  by apply mode_frame_not_round_frame, Hf.
Qed.

End LoopFacts.

(** A thread that makes two rounds: the first brings a reading, in the
    second the sensor does not answer the wake command. *)
Lemma sensor_loop_rounds_witness :
  let sv := example_service (example_ack ++ example_ack
                             ++ example_ack ++ example_reply 10 20 ++ example_ack) 2 in
  let cfg := mkConfig "/www/particles.txt" false 2 60 1 in
  ∃ sv',
    sensor_loop cfg example_repr "tmpk3v9x_q2" 100 sv = Some (Ok tt, sv')
    ∧ n_running sv' = 3%nat
    ∧ journal sv' = [LogBackgroundInit; LogBackgroundInitOk]
    ∧ latest_pm25 (cache (world sv')) = Some 1%float
    ∧ latest_pm10 (cache (world sv')) = Some 2%float.
Proof.
  intros sv cfg.
  destruct (sensor_loop cfg example_repr "tmpk3v9x_q2" 100 sv) as [[r sv']|] eqn:E;
    [|exfalso; vm_compute in E; discriminate].
  destruct (sensor_loop_rounds _ _ _ _ _ _ _ E) as [-> _].
  exists sv'. split; [reflexivity|].
  vm_compute in E. injection E as <-. repeat split; reflexivity.
Defined.

(** The initialisation at the head of the thread fails (the set-mode
    command is not answered); one round follows. *)
Lemma sensor_loop_wire_witness :
  let sv := example_service (example_ack ++ replicate 10 None
                             ++ example_ack ++ example_reply 10 20 ++ example_ack) 1 in
  let cfg := mkConfig "/www/particles.txt" false 2 60 1 in
  ∃ r sv',
    sensor_loop cfg example_repr "tmpk3v9x_q2" 100 sv = Some (r, sv')
    ∧ journal sv' = [LogBackgroundInit; LogBackgroundInitFailed (TimeoutError NoResponse)]
    ∧ tx (ser (world sv'))
      = [sleep_frame 0; mode_frame MODE_QUERY; sleep_frame 0; query_frame; sleep_frame 1].
Proof.
  intros sv cfg.
  destruct (sensor_loop cfg example_repr "tmpk3v9x_q2" 100 sv) as [[r sv']|] eqn:E;
    [|exfalso; vm_compute in E; discriminate].
  exists r, sv'. split; [reflexivity|].
  destruct (sensor_loop_wire cfg example_repr "tmpk3v9x_q2" 100 sv sv' r eq_refl E)
    as (pre & sent & Htx & _).
  vm_compute in E. injection E as _ <-. split; reflexivity.
Defined.

(** ** shutDown *)

(** X23: [shutDown] clears [self.running], so that the next test of the
    flag ends the loop of the thread.  On a service with a port it then
    sends the sleep command, ignores whether the sensor answers, closes
    the port and returns: it cannot fail.  On a service whose port could
    not be opened it raises AttributeError when it reads [self.thread],
    which [__init__] had not assigned.  It touches neither the cache nor
    the files. *)
Theorem shutDown_outcome (fuel : nat) (sv sv' : Service) (out : shutdown_outcome) :
  shutDown fuel sv = Some (out, sv') →
  journal sv' = journal sv ++ [LogShuttingDown]
  ∧ (∀ cfg float_repr tmp_base fuel',
       ∃ sv'', rounds cfg float_repr tmp_base (S fuel') sv' = Some (Ok tt, sv'')
               ∧ world sv'' = world sv')
  ∧ cache (world sv') = cache (world sv)
  ∧ fs (world sv') = fs (world sv)
  ∧ (opened sv = true →
     out = Returned ∧ closed sv' = true
     ∧ tx (ser (world sv')) = tx (ser (world sv)) ++ [sleep_frame 1])
  ∧ (opened sv = false →
     out = AttributeError "thread" ∧ closed sv' = closed sv
     ∧ world sv' = world sv).
Proof.
  unfold shutDown.
  assert ((journal_msg LogShuttingDown;; stop_running) sv
          = Some (Ok tt,
                  mkService (world sv) (opened sv) (closed sv) (buffered sv) (n_flush sv)
                            (λ _, false) (n_running sv)
                            (journal sv ++ [LogShuttingDown]))) as -> by reflexivity.
  cbn [opened].
  destruct (opened sv) eqn:Hopen.
  - destruct ((try_except (on_world (on_ser (cmd_set_sleep fuel 1)))
                          (fun _ => mret tt);; close_port) _)
      as [[r2 sv2]|] eqn:H2; [|done].
    intros [= <- <-].
    apply bind_inv in H2 as [([] & sv1 & H1 & H2)|(e & H1 & _)].
    2:{ exfalso. unfold try_except in H1.
        destruct (on_world (on_ser (cmd_set_sleep fuel 1)) _) as [[[[]|e'] svb]|]; done. }
    injection H2 as _ <-.
    unfold try_except in H1.
    destruct (on_world (on_ser (cmd_set_sleep fuel 1)) _) as [[rb svb]|] eqn:Hb; [|done].
    apply on_world_ser_inv in Hb as (s' & Hs & ->). simpl in Hs.
    apply cmd_set_sleep_tx in Hs as [Htx _].
    assert (sv1 = with_world (with_ser s' (world sv))
                    (mkService (world sv) true (closed sv) (buffered sv) (n_flush sv)
                               (λ _, false) (n_running sv)
                               (journal sv ++ [LogShuttingDown]))) as ->.
    { destruct rb as [[]|e]; simpl in H1; by injection H1 as <-. }
    simpl. split; [done|].
    split; [intros cfg float_repr tmp_base fuel'; by eexists|].
    by repeat split.
  - intros [= <- <-]. simpl. split; [done|].
    split; [intros cfg float_repr tmp_base fuel'; by eexists|].
    by repeat split.
Qed.

(** A shutdown while the sensor is silent, and the shutdown of a service
    whose port could not be opened. *)
Lemma shutDown_outcome_witness :
  let sv := example_service [] 5 in
  let unopened :=
    mkService (example_world []) false false (λ _, 0%nat) 0 (λ _, true) 0 [] in
  (∃ sv',
     shutDown 100 sv = Some (Returned, sv')
     ∧ closed sv' = true
     ∧ tx (ser (world sv')) = [sleep_frame 1]
     ∧ running sv' 0%nat = false)
  ∧ (∃ sv',
       shutDown 100 unopened = Some (AttributeError "thread", sv')
       ∧ closed sv' = false
       ∧ world sv' = world unopened).
Proof.
  intros sv unopened. split.
  - destruct (shutDown 100 sv) as [[out sv']|] eqn:E;
      [|exfalso; vm_compute in E; discriminate].
    destruct (shutDown_outcome _ _ _ _ E) as (_ & _ & _ & _ & Hopen & _).
    destruct (Hopen eq_refl) as (-> & Hclosed & Htx).
    exists sv'. split; [reflexivity|]. split; [exact Hclosed|]. split; [exact Htx|].
    vm_compute in E. injection E as <-. reflexivity.
  - destruct (shutDown 100 unopened) as [[out sv']|] eqn:E;
      [|exfalso; vm_compute in E; discriminate].
    destruct (shutDown_outcome _ _ _ _ E) as (_ & _ & _ & _ & _ & Hnot).
    destruct (Hnot eq_refl) as (-> & Hclosed & Hworld).
    exists sv'. split; [reflexivity|]. split; [exact Hclosed|exact Hworld].
Defined.

(** ** The lock and the pair of readings *)

Lemma run_invariant_step (hist : list (float * float)) (s s' : Sys) :
  step s s' → run_invariant hist s → run_invariant (hist ++ entered_with s s') s'.
Proof.
  unfold run_invariant, readings_of, entered_with.
  destruct 1 as [c h pkt pm25 pm10|c h pkt pm25 pm10|c h pkt pm25 pm10
                |c h pkt pm25 pm10 now|c h pkt pm25 pm10
                |c w pkt pkt'|c w pkt|c w pkt];
    simpl; rewrite ?app_nil_r, ?last_snoc; intros [Hw Hh].
  - split; [|destruct h; congruence].
    split; [done|]. split; [done|]. split; [lia|]. split; [lia|lia].
  - split; [|done]. destruct Hw as (Hl & Hlast & H1 & H2 & Hk).
    split; [done|]. split; [done|]. split; [done|]. split; [lia|lia].
  - split; [|done]. destruct Hw as (Hl & Hlast & H1 & H2 & Hk).
    split; [done|]. split; [done|]. split; [intros _; apply H1; lia|].
    split; [done|lia].
  - split; [|done]. destruct Hw as (Hl & Hlast & H1 & H2 & Hk).
    split; [done|]. split; [done|].
    split; [intros _; apply H1; lia|]. split; [intros _; apply H2; lia|lia].
  - split; [|destruct h; congruence]. destruct Hw as (Hl & Hlast & H1 & H2 & Hk).
    split; [done|]. rewrite Hlast. split; [apply H1; lia|apply H2; lia].
  - split; [|done]. destruct w as [|k a b]; rewrite ?app_nil_r.
    + destruct Hw as [Hl Hr]. by split.
    + destruct Hw as (Hl & _). congruence.
  - split; [|done]. destruct w as [|k a b]; rewrite ?app_nil_r; [done|].
    destruct Hw as (Hl & _). congruence.
  - split; [|done]. destruct w as [|k a b]; rewrite ?app_nil_r.
    + destruct Hw as [Hl Hr]. by split.
    + destruct Hw as (Hl & _). congruence.
Qed.

Lemma run_invariant_holds (hist : list (float * float)) (s : Sys) :
  run hist s → run_invariant hist s.
Proof.
  induction 1 as [pkt|hist s s' _ IH Hstep].
  - unfold run_invariant, readings_of. simpl. by repeat split.
  - by apply run_invariant_step.
Qed.

(** X24: the lock makes the pair of readings atomic.  In every state the
    two threads can reach, the worker and the host are never both inside
    their critical sections; and whenever the worker is outside its own,
    [latest_pm25] and [latest_pm10] are the two values of one and the same
    sample, the last one the worker has published (or both absent when it
    has published none): a loop packet never gets the pm2_5 of one sample
    with the pm10_0 of another. *)
Theorem readings_from_one_sample (hist : list (float * float)) (s : Sys) :
  run hist s →
  (sys_lock s = Some Host → sys_worker s = WOutside)
  ∧ (sys_worker s = WOutside →
     readings_of hist (sys_cache s)
     ∧ ∀ pkt,
         new_loop_packet (sys_cache s) pkt
         = match last hist with
           | None => pkt
           | Some (pm25, pm10) =>
             <["pm10_0" := VFloat pm10]> (<["pm2_5" := VFloat pm25]> pkt)
           end).
Proof.
  intros Hrun. apply run_invariant_holds in Hrun as [Hw Hh].
  split.
  - intros Hl. destruct (sys_worker s); [done|].
    destruct Hw as (Hl' & _). congruence.
  - intros Hout. rewrite Hout in Hw. destruct Hw as [_ Hr].
    split; [done|]. intros pkt. unfold readings_of in Hr. unfold new_loop_packet.
    destruct (last hist) as [[pm25 pm10]|]; destruct Hr as [H25 H10];
      rewrite H25, ?H10; done.
Qed.

(** The worker publishes (1.0, 2.0) and then (3.0, 4.0); the host takes
    the lock for a packet. *)
Lemma readings_from_one_sample_witness :
  let c := mkCache (Some 3%float) (Some 4%float) (Some 1730000120) in
  let pkt : gmap string pyval := {[ "dateTime" := VInt 1730000130 ]} in
  new_loop_packet c pkt = <["pm10_0" := VFloat 4]> (<["pm2_5" := VFloat 3]> pkt).
Proof.
  intros c pkt.
  assert (run [(1%float, 2%float); (3%float, 4%float)]
              (mkSys c (Some Host) WOutside HLocked pkt)) as Hrun.
  { pose proof (run_init ∅) as H0. unfold init_sys, init_cache in H0.
    pose proof (run_step _ _ _ H0 (step_worker_acquire _ _ _ 1%float 2%float)) as H1.
    pose proof (run_step _ _ _ H1 (step_worker_pm25 _ _ _ _ _)) as H2.
    pose proof (run_step _ _ _ H2 (step_worker_pm10 _ _ _ _ _)) as H3.
    pose proof (run_step _ _ _ H3 (step_worker_update _ _ _ _ _ (1730000060 # 1))) as H4.
    pose proof (run_step _ _ _ H4 (step_worker_release _ _ _ _ _)) as H5.
    pose proof (run_step _ _ _ H5 (step_worker_acquire _ _ _ 3%float 4%float)) as H6.
    pose proof (run_step _ _ _ H6 (step_worker_pm25 _ _ _ _ _)) as H7.
    pose proof (run_step _ _ _ H7 (step_worker_pm10 _ _ _ _ _)) as H8.
    pose proof (run_step _ _ _ H8 (step_worker_update _ _ _ _ _ (1730000120 # 1))) as H9.
    pose proof (run_step _ _ _ H9 (step_worker_release _ _ _ _ _)) as H10.
    pose proof (run_step _ _ _ H10 (step_host_acquire _ _ _ pkt)) as H11.
    exact H11. }
  destruct (readings_from_one_sample _ _ Hrun) as [_ H].
  destruct (H eq_refl) as [_ Hpkt]. exact (Hpkt pkt).
Defined.

(** * Termination

    The scan for the header is the only loop of the commands; it ends
    on every line that falls silent. *)

Lemma timeouts_silent (line : nat → option Z) (quiet : nat) :
  silent_from line quiet →
  ∀ n pos, (n ≤ timeouts_in line pos n + (quiet - pos))%nat.
Proof.
  intros Hs. induction n as [|n IH]; intros pos; simpl; [lia|].
  specialize (IH (S pos)).
  destruct (decide (quiet ≤ pos)%nat) as [Hq|Hq].
  - rewrite (Hs pos Hq). lia.
  - destruct (line pos); lia.
Qed.

Lemma read_response_returns (fuel quiet : nat) (s : Serial) :
  silent_from (rx s) quiet → (quiet + 10 ≤ fuel)%nat →
  ∃ r s', read_response fuel s = Some (r, s').
Proof.
  intros Hs Hfuel.
  assert (@nil Z ≠ [0xaa]) as Hb by done.
  destruct (wait_header_spec fuel [] 0 s Hb ltac:(unfold max_retries; lia))
    as [[_ Hnot]|(b' & k & Hw & _)].
  - exfalso. apply Hnot. right.
    pose proof (timeouts_silent _ _ Hs fuel (rx_pos s)). unfold max_retries. lia.
  - unfold read_response. rewrite (bind_ok _ _ _ _ _ Hw).
    destruct (bool_decide (b' ≠ [0xaa])); [by eexists _, _|].
    unfold mbind, M_bind, ser_read.
    destruct (read_bytes 9 _ _) as [bs pos'].
    destruct (bool_decide (length bs ≠ 9%nat)); by eexists _, _.
Qed.

Lemma cmd_set_sleep_returns (fuel quiet : nat) (sleep : Z) (s : Serial) :
  silent_from (rx s) quiet → (quiet + 10 ≤ fuel)%nat →
  ∃ r s', cmd_set_sleep fuel sleep s = Some (r, s').
Proof.
  intros Hs Hfuel. rewrite cmd_set_sleep_eq.
  destruct (read_response_returns fuel quiet (sent (sleep_frame sleep) s) Hs Hfuel)
    as (r & s' & ->).
  destruct r; by eexists _, _.
Qed.

Lemma cmd_set_mode_query_returns (fuel quiet : nat) (s : Serial) :
  silent_from (rx s) quiet → (quiet + 10 ≤ fuel)%nat →
  ∃ r s', cmd_set_mode fuel MODE_QUERY s = Some (r, s').
Proof.
  intros Hs Hfuel. rewrite cmd_set_mode_query_eq.
  destruct (read_response_returns fuel quiet (sent (mode_frame MODE_QUERY) s) Hs Hfuel)
    as (r & s' & ->).
  destruct r; by eexists _, _.
Qed.

Lemma cmd_query_data_returns (fuel quiet : nat) (s : Serial) :
  silent_from (rx s) quiet → (quiet + 10 ≤ fuel)%nat →
  ∃ r s', cmd_query_data fuel s = Some (r, s').
Proof.
  intros Hs Hfuel. rewrite cmd_query_data_unfold.
  destruct (read_response_returns fuel quiet (sent query_frame s) Hs Hfuel)
    as (r & s' & ->).
  destruct r; by eexists _, _.
Qed.

Lemma bind_some {S A B} (m : M S A) (f : A → M S B) (s : S) :
  (∃ r s1, m s = Some (r, s1)
           ∧ ∀ a, r = Ok a → ∃ r2 s2, f a s1 = Some (r2, s2)) →
  ∃ r2 s2, (m ≫= f) s = Some (r2, s2).
Proof.
  intros (r & s1 & Hm & Hf). unfold mbind, M_bind. rewrite Hm.
  destruct r as [a|e]; [by apply Hf|by eexists _, _].
Qed.

Lemma on_world_ser_run {A} (m : M Serial A) (sv : Service) (r : result A) (s' : Serial) :
  m (ser (world sv)) = Some (r, s') →
  on_world (on_ser m) sv = Some (r, with_world (with_ser s' (world sv)) sv).
Proof. intros H. unfold on_world, on_ser. by rewrite H. Qed.

Lemma wake_and_set_mode_returns (fuel quiet : nat) (sv : Service) :
  silent_from (rx (ser (world sv))) quiet → (quiet + 10 ≤ fuel)%nat →
  ∃ r sv', wake_and_set_mode fuel sv = Some (r, sv').
Proof.
  intros Hs Hfuel. unfold wake_and_set_mode.
  destruct (cmd_set_sleep_returns fuel quiet 0 _ Hs Hfuel) as (r1 & s1 & H1).
  pose proof (cmd_set_sleep_tx _ _ _ _ _ H1) as [_ Hrx1].
  apply bind_some. eexists _, _. split; [by apply on_world_ser_run|].
  intros [] _. apply bind_some. eexists _, _. split; [reflexivity|].
  intros [] _. apply bind_some. eexists _, _. split; [reflexivity|].
  intros [] _.
  assert (silent_from (rx s1) quiet) as Hs1 by (by rewrite Hrx1).
  destruct (cmd_set_mode_query_returns fuel quiet
              (mkSerial (rx s1) (discard_waiting (buffered sv (n_flush sv)) (rx s1) (rx_pos s1))
                        (n_reads s1) (tx s1)) Hs1 Hfuel) as (r2 & s2 & H2).
  eexists _, _. by apply on_world_ser_run.
Qed.

Lemma initialize_attempts_returns (fuel quiet : nat) (attempts : list nat) :
  (quiet + 10 ≤ fuel)%nat →
  ∀ sv, silent_from (rx (ser (world sv))) quiet →
        ∃ r sv', initialize_attempts fuel attempts sv = Some (r, sv').
Proof.
  intros Hfuel. induction attempts as [|attempt rest IH]; intros sv Hs.
  - by eexists _, _.
  - cbn [initialize_attempts]. apply bind_some.
    assert (∃ r sv1,
              try_except
                (journal_msg (LogInitAttempt attempt);;
                 wake_and_set_mode fuel;;
                 journal_msg LogInitOk;;
                 mret true)
                (fun e =>
                   journal_msg (LogInitAttemptFailed attempt e);;
                   (if (attempt <? init_retries - 1)%nat then on_world (time_sleep 3)
                    else journal_msg LogInitGaveUp);;
                   mret false) sv = Some (r, sv1)) as (r & sv1 & H1).
    { unfold try_except.
      assert (∃ rb svb, (journal_msg (LogInitAttempt attempt);;
                         wake_and_set_mode fuel;;
                         journal_msg LogInitOk;;
                         mret true) sv = Some (rb, svb)) as (rb & svb & ->).
      { apply bind_some. eexists _, _. split; [reflexivity|]. intros [] _.
        apply bind_some.
        destruct (wake_and_set_mode_returns fuel quiet
                    (mkService (world sv) (opened sv) (closed sv) (buffered sv)
                               (n_flush sv) (running sv) (n_running sv)
                               (journal sv ++ [LogInitAttempt attempt])) Hs Hfuel)
          as (rw & svw & Hw).
        eexists _, _. split; [exact Hw|]. intros [] _. by eexists _, _. }
      destruct rb as [b|e]; [by eexists _, _|].
      destruct (attempt <? init_retries - 1)%nat; by eexists _, _. }
    exists r, sv1. split; [exact H1|].
    intros returned ->.
    apply init_attempt_run in H1 as (s1 & k1 & sent1 & tail & -> & Hrx1 & _).
    destruct returned; [by eexists _, _|].
    apply IH. simpl. by rewrite Hrx1.
Qed.

(** X25: on a line that falls silent (from some wait on, nothing arrives)
    [read_response] returns or raises, and so does every command: the scan
    for the header goes on for ever only while bytes other than the header
    keep arriving. *)
Theorem commands_return (fuel quiet : nat) (s : Serial) :
  silent_from (rx s) quiet → (quiet + 10 ≤ fuel)%nat →
  is_Some (read_response fuel s)
  ∧ (∀ sleep, is_Some (cmd_set_sleep fuel sleep s))
  ∧ (∀ mode, is_Some (cmd_set_mode fuel mode s))
  ∧ is_Some (cmd_query_data fuel s).
Proof.
  intros Hs Hfuel.
  split; [destruct (read_response_returns fuel quiet s Hs Hfuel) as (r & s' & ->); done|].
  split; [intros sleep;
          destruct (cmd_set_sleep_returns fuel quiet sleep s Hs Hfuel) as (r & s' & ->);
          done|].
  split; [|destruct (cmd_query_data_returns fuel quiet s Hs Hfuel) as (r & s' & ->); done].
  intros mode. unfold cmd_set_mode.
  destruct (construct_command_lit CMD_MODE (Some [1; mode])) as [frame|e]; [|done].
  unfold mbind, M_bind, lift_result, ser_write, modify.
  destruct (read_response_returns fuel quiet (sent frame s) Hs Hfuel) as (r & s' & ->).
  by destruct r.
Qed.

Lemma commands_return_witness :
  let s := mkSerial (line_of (replicate 5 (Some 7) ++ example_ack)) 0 0 [] in
  is_Some (read_response 25 s) ∧ is_Some (cmd_query_data 25 s).
Proof.
  intros s.
  assert (silent_from (rx s) 15) as Hs.
  { intros i Hi. unfold s, line_of. simpl rx.
    rewrite (lookup_ge_None_2 _ i); [done|]. simpl. lia. }
  destruct (commands_return 25 15 s Hs ltac:(lia)) as (Hr & _ & _ & Hq).
  split; [exact Hr|exact Hq].
Defined.

(** X26: on a line that falls silent, [initialize_sensor] returns
    normally, and [shutDown] returns or raises its AttributeError:
    neither can hang. *)
Theorem initialize_and_shutDown_return (fuel quiet : nat) (sv : Service) :
  silent_from (rx (ser (world sv))) quiet → (quiet + 10 ≤ fuel)%nat →
  (∃ sv', initialize_sensor fuel sv = Some (Ok tt, sv'))
  ∧ ∃ out sv', shutDown fuel sv = Some (out, sv').
Proof.
  intros Hs Hfuel. split.
  - destruct (initialize_attempts_returns fuel quiet (seq 0 init_retries) Hfuel sv Hs)
      as (r & sv' & H).
    exists sv'. unfold initialize_sensor. rewrite H.
    by apply (initialize_attempts_run fuel 3 0) in H as [-> _].
  - unfold shutDown.
    assert ((journal_msg LogShuttingDown;; stop_running) sv
            = Some (Ok tt,
                    mkService (world sv) (opened sv) (closed sv) (buffered sv) (n_flush sv)
                              (λ _, false) (n_running sv)
                              (journal sv ++ [LogShuttingDown]))) as -> by reflexivity.
    cbn [opened]. destruct (opened sv); [|by eexists _, _].
    destruct (cmd_set_sleep_returns fuel quiet 1 _ Hs Hfuel) as (r1 & s1 & H1).
    set (sv1 := mkService (world sv) true (closed sv) (buffered sv) (n_flush sv)
                          (λ _, false) (n_running sv)
                          (journal sv ++ [LogShuttingDown])).
    pose proof (on_world_ser_run (cmd_set_sleep fuel 1) sv1 r1 s1 H1) as Hrun.
    unfold mbind, M_bind, try_except. rewrite Hrun.
    destruct r1; by eexists _, _.
Qed.

Lemma initialize_and_shutDown_return_witness :
  let sv := example_service example_ack 0 in
  (∃ sv', initialize_sensor 30 sv = Some (Ok tt, sv'))
  ∧ ∃ out sv', shutDown 30 sv = Some (out, sv').
Proof.
  intros sv.
  assert (silent_from (rx (ser (world sv))) 10) as Hs.
  { intros i Hi. unfold sv, example_service, example_world, line_of. simpl rx.
    rewrite (lookup_ge_None_2 _ i); [done|]. simpl. lia. }
  apply (initialize_and_shutDown_return 30 10 sv Hs). lia.
Defined.

(** ** The rounds end *)

Section ReturnFacts.

Variable cfg : Config.
Variable float_repr : float → string.
Variable tmp_base : string.

Lemma sample_once_returns (fuel quiet : nat) (samples : list (float * float)) (w : World) :
  silent_from (rx (ser w)) quiet → (quiet + 10 ≤ fuel)%nat →
  ∃ r w', sample_once cfg fuel samples w = Some (r, w').
Proof.
  intros Hs Hfuel.
  destruct (cmd_query_data_returns fuel quiet (ser w) Hs Hfuel) as (q & s' & Hq).
  unfold sample_once, try_except, mbind, M_bind, query_noted, on_ser. rewrite Hq.
  destruct q as [[[pm25|] [pm10|]]|e]; simpl; try by eexists _, _.
  destruct (log_raw cfg); by eexists _, _.
Qed.

Lemma sampling_returns (quiet : nat) :
  ∀ (j fuel : nat) (start_time : Q) (samples : list (float * float)) (w : World),
    silent_from (rx (ser w)) quiet →
    within_period cfg start_time w j = false →
    (j + quiet + 11 ≤ fuel)%nat →
    ∃ r w', sampling cfg fuel start_time samples w = Some (r, w').
Proof.
  induction j as [|j IH]; intros fuel start_time samples w Hs Hout Hfuel;
    (destruct fuel as [|fuel]; [lia|]); cbn [sampling];
    unfold within_period in Hout.
  - rewrite Nat.add_0_r in Hout.
    unfold mbind, M_bind, time_time. rewrite Hout. by eexists _, _.
  - unfold mbind at 1, M_bind at 1, time_time.
    destruct (Qlt_bool (clock w (clock_pos w) - start_time) _); [|by eexists _, _].
    set (w1 := mkWorld (ser w) (clock w) (S (clock_pos w)) (cache w) (fs w)
                       (queries w) (log w)).
    destruct (sample_once_returns fuel quiet samples w1 Hs ltac:(lia)) as (r2 & w2 & H2).
    apply bind_some. exists r2, w2. split; [exact H2|].
    intros samples' ->.
    apply sample_once_run in H2 as (q & s' & Hq & _ & ->).
    apply cmd_query_data_tx in Hq as [_ Hrx].
    apply bind_some. eexists _, _. split; [reflexivity|]. intros [] _.
    apply IH; [simpl; by rewrite Hrx| |lia].
    unfold within_period. simpl.
    by replace (S (clock_pos w + j))%nat with (clock_pos w + S j)%nat by lia.
Qed.

Lemma publish_total (samples : list (float * float)) (w : World) :
  ∃ w', publish cfg float_repr tmp_base samples w = Some (Ok tt, w')
        ∧ ser w' = ser w ∧ clock w' = clock w.
Proof.
  destruct samples as [|[pm25 pm10] earlier _] using rev_ind.
  - by eexists.
  - destruct (publish_run cfg float_repr tmp_base earlier pm25 pm10 w)
      as (rw & fs1 & _ & ->).
    by eexists.
Qed.

Lemma cycle_body_returns (fuel quiet bound : nat) (w : World) :
  silent_from (rx (ser w)) quiet →
  clock_advances cfg (clock w) bound →
  (bound + quiet + 11 ≤ fuel)%nat →
  ∃ r w', cycle_body cfg float_repr tmp_base fuel w = Some (r, w')
          ∧ rx (ser w') = rx (ser w) ∧ clock w' = clock w.
Proof.
  intros Hs Hclock Hfuel. unfold cycle_body.
  destruct (cmd_set_sleep_returns fuel quiet 0 (ser w) Hs ltac:(lia)) as (r1 & s1 & H1).
  pose proof (cmd_set_sleep_tx _ _ _ _ _ H1) as [_ Hrx1].
  set (w1 := mkWorld (ser w) (clock w) (clock_pos w) (cache w) (fs w) (queries w)
                     (log w ++ [LogWaking])).
  assert (on_ser (cmd_set_sleep fuel 0) w1 = Some (r1, with_ser s1 w1)) as Hon.
  { unfold on_ser. simpl. by rewrite H1. }
  erewrite bind_ok; [|reflexivity]. fold w1.
  destruct r1 as [[]|e];
    [rewrite (bind_ok _ _ _ _ _ Hon)
    |rewrite (bind_raise _ _ _ _ _ Hon); by eexists _, _].
  erewrite bind_ok; [|reflexivity].
  erewrite bind_ok; [|reflexivity].
  set (w4 := mkWorld s1 (clock w) (S (clock_pos w)) (cache w) (fs w) (queries w)
                     (log w ++ [LogWaking])).
  change (clock (with_ser s1 w1) (clock_pos (with_ser s1 w1)))
    with (clock w (clock_pos w)).
  change (mkWorld (ser (with_ser s1 w1)) (clock (with_ser s1 w1))
                  (S (clock_pos (with_ser s1 w1))) (cache (with_ser s1 w1))
                  (fs (with_ser s1 w1)) (queries (with_ser s1 w1))
                  (log (with_ser s1 w1))) with w4.
  destruct (Hclock (clock_pos w)) as (j & Hj & Hout).
  assert (silent_from (rx (ser w4)) quiet) as Hs4 by (simpl; by rewrite Hrx1).
  destruct (sampling_returns quiet j fuel (clock w (clock_pos w)) [] w4 Hs4)
    as (r5 & w5 & H5); [|lia|].
  { unfold within_period. simpl.
    by replace (S (clock_pos w + j))%nat with (clock_pos w + 1 + j)%nat by lia. }
  pose proof (sampling_run _ _ _ _ _ _ _ H5) as (qs & -> & _ & _ & _ & Hrx5 & Hck5 & _).
  rewrite (bind_ok _ _ _ _ _ H5).
  destruct (publish_total ([] ++ valid_samples qs) w5) as (w6 & H6 & Hs6 & Hck6).
  rewrite (bind_ok _ _ _ _ _ H6).
  erewrite bind_ok; [|reflexivity].
  set (w7 := mkWorld (ser w6) (clock w6) (clock_pos w6) (cache w6) (fs w6) (queries w6)
                     (log w6 ++ [LogSleeping])).
  assert (rx (ser w7) = rx (ser w)) as Hrx7.
  { simpl. by rewrite Hs6, Hrx5. }
  assert (silent_from (rx (ser w7)) quiet) as Hs7 by (by rewrite Hrx7).
  destruct (cmd_set_sleep_returns fuel quiet 1 (ser w7) Hs7 ltac:(lia)) as (r8 & s8 & H8).
  pose proof (cmd_set_sleep_tx _ _ _ _ _ H8) as [_ Hrx8].
  assert (on_ser (cmd_set_sleep fuel 1) w7 = Some (r8, with_ser s8 w7)) as Hon8.
  { unfold on_ser. by rewrite H8. }
  destruct r8 as [[]|e];
    [rewrite (bind_ok _ _ _ _ _ Hon8)|rewrite (bind_raise _ _ _ _ _ Hon8)];
    eexists _, _; (split; [reflexivity|]); simpl;
    (split; [by rewrite Hrx8, Hrx7|by rewrite Hck6, Hck5]).
Qed.

Lemma cycle_returns (fuel quiet bound : nat) (w : World) :
  silent_from (rx (ser w)) quiet →
  clock_advances cfg (clock w) bound →
  (bound + quiet + 11 ≤ fuel)%nat →
  ∃ w', cycle cfg float_repr tmp_base fuel w = Some (Ok tt, w')
        ∧ rx (ser w') = rx (ser w) ∧ clock w' = clock w.
Proof.
  intros Hs Hclock Hfuel.
  destruct (cycle_body_returns fuel quiet bound w Hs Hclock Hfuel)
    as (rb & wb & Hb & Hrx & Hck).
  unfold cycle, try_except. rewrite Hb.
  destruct rb as [[]|e]; eexists; (split; [reflexivity|]); by split.
Qed.

Lemma rounds_returns (quiet bound : nat) :
  ∀ (k fuel : nat) (sv : Service),
    silent_from (rx (ser (world sv))) quiet →
    clock_advances cfg (clock (world sv)) bound →
    running sv (n_running sv + k)%nat = false →
    (k + bound + quiet + 12 ≤ fuel)%nat →
    ∃ sv', rounds cfg float_repr tmp_base fuel sv = Some (Ok tt, sv').
Proof.
  induction k as [|k IH]; intros fuel sv Hs Hclock Hstop Hfuel;
    (destruct fuel as [|fuel]; [lia|]); cbn [rounds];
    unfold mbind at 1, M_bind at 1, test_running.
  - rewrite Nat.add_0_r in Hstop. rewrite Hstop. by eexists.
  - destruct (running sv (n_running sv)); [|by eexists].
    destruct (cycle_returns fuel quiet bound (world sv) Hs Hclock ltac:(lia))
      as (w2 & H2 & Hrx & Hck).
    unfold mbind at 1, M_bind at 1, on_world. simpl world. rewrite H2.
    apply IH; simpl; [by rewrite Hrx|by rewrite Hck| |lia].
    by replace (S (n_running sv + k))%nat with (n_running sv + S k)%nat by lia.
Qed.

(** X27: the thread ends.  On a line that falls silent and with a clock
    that advances, every round returns; and when moreover some test of
    [self.running] finds the flag cleared, [sensor_loop] returns. *)
Theorem sensor_loop_returns (fuel quiet bound k : nat) (sv : Service) :
  silent_from (rx (ser (world sv))) quiet →
  clock_advances cfg (clock (world sv)) bound →
  (k + bound + quiet + 12 ≤ fuel)%nat →
  (∃ w', cycle cfg float_repr tmp_base fuel (world sv) = Some (Ok tt, w'))
  ∧ (running sv (n_running sv + k)%nat = false →
     ∃ sv', sensor_loop cfg float_repr tmp_base fuel sv = Some (Ok tt, sv')).
Proof.
  intros Hs Hclock Hfuel. split.
  - destruct (cycle_returns fuel quiet bound (world sv) Hs Hclock ltac:(lia))
      as (w' & H & _).
    by exists w'.
  - intros Hstop. unfold sensor_loop.
    unfold mbind at 1, M_bind at 1, get.
    destruct (opened sv); [|by eexists].
    assert (∃ r1 sv1,
              try_except
                (journal_msg LogBackgroundInit;;
                 wake_and_set_mode fuel;;
                 journal_msg LogBackgroundInitOk)
                (fun e => journal_msg (LogBackgroundInitFailed e)) sv = Some (Ok r1, sv1)
              ∧ rx (ser (world sv1)) = rx (ser (world sv))
              ∧ clock (world sv1) = clock (world sv)
              ∧ running sv1 = running sv ∧ n_running sv1 = n_running sv)
      as (r1 & sv1 & H1 & Hrx1 & Hck1 & Hru1 & Hn1).
    { unfold try_except.
      set (sv0 := mkService (world sv) (opened sv) (closed sv) (buffered sv)
                            (n_flush sv) (running sv) (n_running sv)
                            (journal sv ++ [LogBackgroundInit])).
      destruct (wake_and_set_mode_returns fuel quiet sv0 Hs ltac:(lia))
        as (rw & svw & Hw).
      assert ((journal_msg LogBackgroundInit;; wake_and_set_mode fuel;;
               journal_msg LogBackgroundInitOk) sv
              = match rw with
                | Ok _ => Some (Ok tt,
                                mkService (world svw) (opened svw) (closed svw)
                                          (buffered svw) (n_flush svw) (running svw)
                                          (n_running svw)
                                          (journal svw ++ [LogBackgroundInitOk]))
                | Raise e => Some (Raise e, svw)
                end) as ->.
      { unfold mbind at 1, M_bind at 1, journal_msg at 1, modify. fold sv0.
        unfold mbind, M_bind. rewrite Hw. by destruct rw as [[]|e]. }
      apply wake_and_set_mode_run in Hw as (s' & kf & -> & Hrx & _).
      destruct rw as [[]|e]; eexists _, _; (split; [reflexivity|]); simpl;
        by repeat split. }
    rewrite (bind_ok _ _ _ _ _ H1).
    apply (rounds_returns quiet bound k).
    + by rewrite Hrx1.
    + by rewrite Hck1.
    + by rewrite Hru1, Hn1.
    + lia.
Qed.

End ReturnFacts.

(** Two rounds on a sensor that answers the first commands and then
    falls silent. *)
Lemma sensor_loop_returns_witness :
  let sv := example_service (example_ack ++ example_ack ++ example_ack
                             ++ example_reply 10 20) 2 in
  (∃ w', cycle example_cfg example_repr "tmpk3v9x_q2" 60 (world sv) = Some (Ok tt, w'))
  ∧ ∃ sv', sensor_loop example_cfg example_repr "tmpk3v9x_q2" 60 sv = Some (Ok tt, sv').
Proof.
  intros sv.
  assert (silent_from (rx (ser (world sv))) 40) as Hs.
  { intros i Hi. unfold sv, example_service, example_world, line_of. simpl rx.
    rewrite (lookup_ge_None_2 _ i); [done|]. simpl. lia. }
  assert (clock_advances example_cfg (clock (world sv)) 3) as Hclock.
  { intros p. exists 3%nat. split; [lia|].
    unfold sv, example_service, example_world, example_cfg. simpl.
    unfold Qlt_bool. apply negb_false_iff, Qle_bool_iff.
    unfold Qle, Qminus, Qplus, Qopp, inject_Z. simpl. lia. }
  destruct (sensor_loop_returns example_cfg example_repr "tmpk3v9x_q2" 60 40 3 2 sv
              Hs Hclock ltac:(lia)) as [Hcycle Hloop].
  split; [exact Hcycle|]. apply Hloop. reflexivity.
Defined.
